(** * voice-talk-app: quota arbitration, audio chunking, gain clipping, voice selection

    A shallow embedding of
      - [src/ai/quota_manager.py]   ([QuotaManager])
      - [src/audio/processor.py]    ([AudioProcessor])
      - [src/api/routes/voice.py]   ([speak_text]) with
        [src/speech/synthesis/pyttsx3_engine.py] ([Pyttsx3Engine])
      - [src/ai/conversation/huggingface_client.py] ([HuggingFaceClient])
      - [src/api/routes/conversation.py] ([chat])
    and the properties of the specification that concern them.

    The database answers every query (the [except] branches that log a
    failure of the session are not taken), a call reads the clock once,
    the clock of the database (which stamps the rows it inserts) is a
    reading of its own, and strings hold ASCII characters. *)

From Stdlib Require Import ZArith QArith Qminmax Lia.
From stdpp Require Import gmap strings list.

Local Open Scope Z_scope.

(** ** Quota manager *)

Module Quota.

(** [class AIBackend(Enum)], [STTBackend], [TTSBackend]. *)
Inductive AIBackend := AI_HUGGINGFACE | AI_OLLAMA | AI_FALLBACK.
Inductive STTBackend := STT_VOSK | STT_SHERPA_ONNX | STT_HUGGINGFACE.
Inductive TTSBackend := TTS_PYTTSX3 | TTS_AZURE | TTS_ESPEAK.

(** A naive [datetime] is a number of microseconds on the proleptic
    time line; a calendar date is its day number, and [timedelta.days]
    is the floor of the difference in days (Python normalises a
    [timedelta] so that [seconds] and [microseconds] are non-negative). *)
Definition datetime := Z.
Definition us_per_day : Z := 86400000000.
Definition date (t : datetime) : Z := t `div` us_per_day.
Definition timedelta_days (a b : datetime) : Z := (a - b) `div` us_per_day.

(** Column [updated_at] is written in two ways: the code assigns the
    reading of its own clock, or the database stamps the row with its
    clock when an update leaves the column out ([onupdate=func.now()]).
    No code reads the column; the reading of the database's clock is
    not modelled. *)
Inductive update_stamp := assigned (t : datetime) | stamped_by_database.

(** Row of table [api_quota_tracker] ([class APIQuotaTracker]); the
    surrogate key [id] plays no role, [service_name] is unique, and a
    null [updated_at] is [None]. *)
Record APIQuotaTracker := mkTracker {
  service_name : string;
  daily_calls : Z;
  daily_limit : Z;
  last_reset_date : datetime;
  is_quota_exceeded : bool;
  updated_at : option update_stamp
}.

(** The table, keyed by the unique column. *)
Abbreviation table := (gmap string APIQuotaTracker).

(** Values of [DEFAULT_QUOTAS]: an integer or [float("inf")]. *)
Inductive quota_limit := Finite (n : Z) | Inf.

Definition DEFAULT_QUOTAS : list (string * quota_limit) :=
  [ ("huggingface", Finite 1000);
    ("azure_tts", Finite 5000000);
    ("vosk", Inf);
    ("ollama", Inf) ].

(** [int(limit) if limit != float("inf") else 999999] *)
Definition limit_column (l : quota_limit) : Z :=
  match l with Finite n => n | Inf => 999999 end.

(** [_initialize_quota_trackers]: one row per configured service that
    has none yet. The code sets the name, the calls and the limit; the
    column defaults give [is_quota_exceeded = False], no [updated_at],
    and as [last_reset_date] the reading [created] of the database's
    clock at the insertion ([server_default=func.now()]). The function
    reads no other clock. *)
Definition new_tracker (service : string) (limit : quota_limit) (created : datetime)
  : APIQuotaTracker :=
  mkTracker service 0 (limit_column limit) created false None.

Definition _initialize_quota_trackers (db : table) (created : datetime) : table :=
  foldl (fun db '(service, limit) =>
           match db !! service with
           | Some _ => db
           | None => <[service := new_tracker service limit created]> db
           end) db DEFAULT_QUOTAS.

(** The day-rollover branch of [check_quota] (lines 99-102): the code
    assigns [daily_calls] and [last_reset_date] (from its own clock)
    and commits; it does not assign [updated_at], so the database
    stamps it. *)
Definition new_day (now : datetime) (tracker : APIQuotaTracker) : bool :=
  1 <=? timedelta_days now (last_reset_date tracker).

Definition reset_tracker (now : datetime) (tracker : APIQuotaTracker)
  : APIQuotaTracker :=
  mkTracker (service_name tracker) 0 (daily_limit tracker) now
            (is_quota_exceeded tracker) (Some stamped_by_database).

(** [check_quota]: the answer and the table after the call. The
    readings of the clock inside one call are identified. *)
Definition check_quota (db : table) (service : string) (now : datetime)
  : (bool * Z) * table :=
  match db !! service with
  | None => ((true, 999999), db)
  | Some tracker =>
      let '(tracker, db) :=
        if new_day now tracker
        then (reset_tracker now tracker,
              <[service := reset_tracker now tracker]> db)
        else (tracker, db) in
      let calls_remaining := Z.max 0 (daily_limit tracker - daily_calls tracker) in
      let quota_ok := daily_calls tracker <? daily_limit tracker in
      ((quota_ok, calls_remaining), db)
  end.

(** [track_usage]; [updated_at] is assigned from the code's clock. *)
Definition track_tracker (units : Z) (now : datetime) (tracker : APIQuotaTracker)
  : APIQuotaTracker :=
  let calls := daily_calls tracker + units in
  mkTracker (service_name tracker) calls (daily_limit tracker)
            (last_reset_date tracker)
            (daily_limit tracker <=? calls) (Some (assigned now)).

Definition track_usage (db : table) (service : string) (units : Z) (now : datetime)
  : table :=
  match db !! service with
  | Some tracker => <[service := track_tracker units now tracker]> db
  | None => db
  end.

(** The manager: the table it reads and writes and [current_backends]. *)
Record backends := mkBackends {
  ai : AIBackend;
  stt : STTBackend;
  tts : TTSBackend
}.

Record QuotaManager := mkManager {
  db : table;
  current_backends : backends
}.

(** [__init__] *)
Definition init (db0 : table) (created : datetime) : QuotaManager :=
  mkManager (_initialize_quota_trackers db0 created)
            (mkBackends AI_HUGGINGFACE STT_VOSK TTS_PYTTSX3).

(** [get_quota_manager]: the process keeps one manager and builds it
    on first use; [singleton] is [None] until then and holds the
    manager's [current_backends] afterwards. *)
Definition get_quota_manager (singleton : option backends) (db0 : table)
    (created : datetime) : QuotaManager :=
  match singleton with
  | Some current => mkManager db0 current
  | None => init db0 created
  end.

Definition set_ai (b : AIBackend) (m : QuotaManager) (db' : table) : QuotaManager :=
  mkManager db' (mkBackends b (stt (current_backends m)) (tts (current_backends m))).

(** [get_best_ai_backend] *)
Definition get_best_ai_backend (m : QuotaManager) (now : datetime)
  : AIBackend * QuotaManager :=
  let '((hf_ok, hf_remaining), db') := check_quota (db m) "huggingface" now in
  if hf_ok && (0 <? hf_remaining)
  then (AI_HUGGINGFACE, set_ai AI_HUGGINGFACE m db')
  else (AI_OLLAMA, set_ai AI_OLLAMA m db').

Definition set_stt (b : STTBackend) (m : QuotaManager) (db' : table) : QuotaManager :=
  mkManager db' (mkBackends (ai (current_backends m)) b (tts (current_backends m))).

Definition set_tts (b : TTSBackend) (m : QuotaManager) : QuotaManager :=
  mkManager (db m) (mkBackends (ai (current_backends m)) (stt (current_backends m)) b).

(** [get_best_stt_backend] *)
Definition get_best_stt_backend (m : QuotaManager) (require_online : bool)
    (now : datetime) : STTBackend * QuotaManager :=
  if negb require_online then (STT_VOSK, set_stt STT_VOSK m (db m))
  else
    let '((hf_ok, _), db') := check_quota (db m) "huggingface" now in
    if hf_ok then (STT_HUGGINGFACE, set_stt STT_HUGGINGFACE m db')
    else (STT_VOSK, set_stt STT_VOSK m db').

(** [get_best_tts_backend] *)
Definition get_best_tts_backend (m : QuotaManager) : TTSBackend * QuotaManager :=
  (TTS_PYTTSX3, set_tts TTS_PYTTSX3 m).

(** The invariant of the data model. *)
Definition flag_consistent (tracker : APIQuotaTracker) : Prop :=
  is_quota_exceeded tracker = (daily_limit tracker <=? daily_calls tracker).

(** [track_usage(service, 1)] once per element of [times]. *)
Definition track_each (db : table) (service : string) (times : list datetime) : table :=
  foldl (fun db now => track_usage db service 1 now) db times.

(** Moments and tables of the worked examples: 23:00 on day 0, 01:00
    on day 1 and 23:00 on day 2; the table the manager creates on an
    empty database whose clock reads 23:00 on day 0, and the same after
    [huggingface] used up its quota at that moment. *)
Definition hour : Z := 3600000000.
Definition day0_23h : datetime := 23 * hour.
Definition day1_01h : datetime := 25 * hour.
Definition day2_23h : datetime := 71 * hour.

Definition fresh_db : table := _initialize_quota_trackers ∅ day0_23h.
Definition exhausted_db : table := track_usage fresh_db "huggingface" 1000 day0_23h.

(** A table with one unused counter of limit 3. *)
Definition small_db : table :=
  {[ "demo" := mkTracker "demo" 0 3 day0_23h false None ]}.

End Quota.

(** ** Audio processor *)

Module Processor.

(** A frame is a one-dimensional [np.ndarray]; its samples are integers. *)
Definition frame := list Z.

Definition in_int16 (s : Z) : Prop := -32768 <= s <= 32767.

(** [int(sample_rate * chunk_duration_ms / 1000)]: the product of two
    Python integers is exact, [int] truncates towards zero. The true
    division is taken exactly, as it is for products below 2^52. *)
Definition chunk_size (sample_rate chunk_duration_ms : Z) : Z :=
  (sample_rate * chunk_duration_ms) `quot` 1000.

(** [len(range(start, stop, step))] *)
Definition range_len (start stop step : Z) : Z :=
  if 0 <? step
  then if start <? stop then (stop - start - 1) `div` step + 1 else 0
  else if stop <? start then (start - stop - 1) `div` (- step) + 1 else 0.

(** [range(start, stop, step)]; a zero step raises [ValueError]. *)
Definition py_range (start stop step : Z) : option (list Z) :=
  if step =? 0 then None
  else Some ((fun k : nat => start + Z.of_nat k * step)
               <$> seq 0 (Z.to_nat (range_len start stop step))).

(** [a[lo:hi]] on a sequence: a negative bound counts from the end,
    both bounds are clamped to the length. *)
Definition slice_index (len i : Z) : Z :=
  if i <? 0 then Z.max 0 (i + len) else Z.min i len.

Definition slice {A} (a : list A) (lo hi : Z) : list A :=
  let len := Z.of_nat (length a) in
  let lo := slice_index len lo in
  let hi := slice_index len hi in
  take (Z.to_nat (hi - lo)) (drop (Z.to_nat lo) a).

(** Body of the loop of [split_audio_chunks]. *)
Definition append_chunk (audio_data : frame) (chunk_size : Z)
    (chunks : list frame) (i : Z) : list frame :=
  let chunk := slice audio_data i (i + chunk_size) in
  if (0 <? length chunk)%nat then chunks ++ [chunk] else chunks.

(** [split_audio_chunks]; [None] is the [ValueError] of [range]. *)
Definition split_audio_chunks (audio_data : frame)
    (sample_rate chunk_duration_ms : Z) : option (list frame) :=
  let chunk_size := chunk_size sample_rate chunk_duration_ms in
  match py_range 0 (Z.of_nat (length audio_data)) chunk_size with
  | None => None
  | Some starts => Some (foldl (append_chunk audio_data chunk_size) [] starts)
  end.

(** [concatenate_chunks] *)
Definition concatenate_chunks (chunks : list frame) : frame :=
  match chunks with
  | [] => []
  | _ => concat chunks
  end.

(** The round trip, as a partial function. *)
Definition split_then_concatenate (audio_data : frame)
    (sample_rate chunk_duration_ms : Z) : option frame :=
  concatenate_chunks <$> split_audio_chunks audio_data sample_rate chunk_duration_ms.

(** The chunk that starts at [j] times the chunk size. *)
Definition chunk_at (a : frame) (c j : nat) : frame := take c (drop (j * c) a).

(** The sizes of the chunks of a list. *)
Definition sizes (chunks : list frame) : list Z :=
  (fun chunk => Z.of_nat (length chunk)) <$> chunks.

(** *** Gain and normalisation

    A floating-point value is not-a-number, an infinity or a rational. *)
Inductive float := NaN | Infinity (negative : bool) | Fin (q : Q).

(** [np.clip(x, lo, hi)] is [minimum(maximum(x, lo), hi)]. *)
Definition clip (x : float) (lo hi : Q) : float :=
  match x with
  | NaN => NaN
  | Infinity false => Fin hi
  | Infinity true => Fin lo
  | Fin q => Fin (Qmin (Qmax q lo) hi)
  end.

(** Conversion of a float to an integer truncates towards zero. *)
Definition truncate (q : Q) : Z := Qnum q `quot` Z.pos (Qden q).

(** Storing an integer in 16 bits keeps it modulo 2^16. *)
Definition wrap16 (z : Z) : Z := (z + 32768) `mod` 65536 - 32768.

(** What clipping amounts to on the truncated value. *)
Definition saturate16 (z : Z) : Z := Z.max (-32768) (Z.min 32767 z).

Definition is_zero (x : float) : bool :=
  match x with
  | Fin q => Qeq_bool q 0
  | _ => false
  end.

Section FloatingPoint.
(** Rounding of an exact product to the floating type of the array
    (an overflow gives an infinity), and the integer a cast of a NaN
    yields. Nothing is assumed of either. *)
Variable fround : Q -> float.
Variable invalid_cast : float -> Z.
(** [10 ** (gain_db / 20.0)] on Python floats: [None] is [OverflowError]. *)
Variable gain_linear : float -> option float.
(** [np.sqrt(np.mean(audio_data.astype(np.float32) ** 2))] *)
Variable rms_of : frame -> float.
(** [10 ** ((target_db - 20 * np.log10(rms / 32767.0)) / 20.0)];
    [None] is an exception inside the [try]. *)
Variable normalize_gain : float -> float -> option float.

(** [x.astype(np.float32)] of a 16-bit sample is exact. *)
Definition astype_float32 (s : Z) : float := Fin (inject_Z s).

(** [x.astype(np.int16)] *)
Definition astype_int16 (x : float) : Z :=
  match x with
  | Fin q => wrap16 (truncate q)
  | _ => wrap16 (invalid_cast x)
  end.

(** The product of two floats. *)
Definition fmul (a b : float) : float :=
  match a, b with
  | NaN, _ | _, NaN => NaN
  | Fin p, Fin q => fround (p * q)
  | Fin p, Infinity s | Infinity s, Fin p =>
      if Qeq_bool p 0 then NaN
      else Infinity (xorb s (negb (Qle_bool 0 p)))
  | Infinity s, Infinity t => Infinity (xorb s t)
  end.

(** [np.clip(audio_data.astype(np.float32) * gain, -32768, 32767).astype(np.int16)] *)
Definition scale_sample (gain : float) (s : Z) : Z :=
  astype_int16 (clip (fmul (astype_float32 s) gain) (-32768 # 1) (32767 # 1)).

(** [apply_gain] *)
Definition apply_gain (audio_data : frame) (gain_db : float) : frame :=
  match gain_linear gain_db with
  | None => audio_data
  | Some gain => scale_sample gain <$> audio_data
  end.

(** [normalize_audio] *)
Definition normalize_audio (audio_data : frame) (target_db : float) : frame :=
  let rms := rms_of audio_data in
  if is_zero rms then audio_data
  else match normalize_gain rms target_db with
       | None => audio_data
       | Some gain => scale_sample gain <$> audio_data
       end.
End FloatingPoint.

(** Floating-point operations for the worked example: exact rounding,
    a cast of NaN that gives 0, and a gain of 6 dB taken as the factor 2. *)
Definition exact_round (q : Q) : float := Fin q.
Definition zero_cast (x : float) : Z := 0.
Definition double_gain (gain_db : float) : option float := Some (Fin 2).

End Processor.

(** ** Speech synthesis route *)

Module Voice.

(** Python strings, restricted to the characters of ASCII. *)
Definition lower_ascii (c : Ascii.ascii) : Ascii.ascii :=
  let n := Ascii.N_of_ascii c in
  if (65 <=? n)%N && (n <=? 90)%N then Ascii.ascii_of_N (n + 32) else c.

(** [str.lower] *)
Fixpoint lower (s : string) : string :=
  match s with
  | EmptyString => EmptyString
  | String c s' => String (lower_ascii c) (lower s')
  end.

(** [str.isspace] of one character: tab to carriage return, the four
    separators and the space. *)
Definition is_space (c : Ascii.ascii) : bool :=
  let n := Ascii.N_of_ascii c in
  ((9 <=? n)%N && (n <=? 13)%N) || ((28 <=? n)%N && (n <=? 32)%N).

Fixpoint lstrip (s : string) : string :=
  match s with
  | EmptyString => EmptyString
  | String c s' => if is_space c then lstrip s' else s
  end.

(** [str.strip] *)
Definition strip (s : string) : string :=
  String.rev (lstrip (String.rev (lstrip s))).

(** A voice of the driver. *)
Record voice := mkVoice {
  id : string;
  name : string
}.

(** An entry of [list_voices]: the keys [index], [id] and [name] of
    the dictionary (the route reads no other). *)
Record voice_entry := mkEntry {
  entry_index : nat;
  entry_id : string;
  entry_name : string
}.

(** [class Pyttsx3Engine] with the two properties of the driver the
    route sets. *)
Record Pyttsx3Engine := mkEngine {
  is_initialized : bool;
  available_voices : list voice;
  voice_property : string;
  rate_property : Z
}.

(** What the loggers of the route and of the engine record. *)
Inductive log_record :=
  | info_engine_initialized (voices : nat)
  | error_engine_initialize
  | warning_voice_not_found (requested : string)
  | info_voice_set (voice_name : string)
  | error_voice_index (voice_index : nat)
  | debug_rate_set (rate : Z)
  | info_saved_speech
  | error_saving_speech
  | info_generated_speech
  | error_generating_speech.

(** The fields of [class TextToSpeechSettings] the engine sets on the
    driver and the route changes later; [pyttsx3_voice_index] is the
    configured default voice (0 unless the environment says
    otherwise). *)
Record TextToSpeechSettings := mkSettings {
  pyttsx3_voice_index : Z;
  pyttsx3_rate : Z
}.

(** [l[i]] for a Python integer: a negative index counts from the end,
    [None] is [IndexError]. *)
Definition py_index {A} (l : list A) (i : Z) : option A :=
  if 0 <=? i then l !! Z.to_nat i
  else if 0 <=? i + Z.of_nat (length l)
       then l !! Z.to_nat (i + Z.of_nat (length l))
       else None.

(** [Pyttsx3Engine._initialize_engine] on the driver [pyttsx3.init()]
    returns, which offers [voices] and starts on [driver_voice]: the
    configured rate is set, and the configured voice when its index is
    below the number of voices. An exception leaves the engine
    uninitialised. *)
Definition _initialize_engine (tts_settings : TextToSpeechSettings)
    (voices : list voice) (driver_voice : string)
  : Pyttsx3Engine * list log_record :=
  let rate := pyttsx3_rate tts_settings in
  if pyttsx3_voice_index tts_settings <? Z.of_nat (length voices)
  then match py_index voices (pyttsx3_voice_index tts_settings) with
       | Some v =>
           (mkEngine true voices (id v) rate,
            [info_engine_initialized (length voices)])
       | None =>
           (mkEngine false voices driver_voice rate, [error_engine_initialize])
       end
  else (mkEngine true voices driver_voice rate,
        [info_engine_initialized (length voices)]).

(** [class SpeakRequest], [class SpeakResponse]; [speed] is a float. *)
Record SpeakRequest := mkRequest {
  text : string;
  req_voice : option string;
  speed : Processor.float
}.

(** The bounds the schema puts on [SpeakRequest.text] ([min_length=1],
    [max_length=1000]): no request object exists outside them. *)
Definition schema_accepts (txt : string) : bool :=
  (1 <=? String.length txt)%nat && (String.length txt <=? 1000)%nat.

(** [int(x)] of a float: [None] is the [ValueError] for a NaN and the
    [OverflowError] for an infinity. *)
Definition py_int (x : Processor.float) : option Z :=
  match x with
  | Processor.Fin q => Some (Processor.truncate q)
  | _ => None
  end.

Record SpeakResponse := mkResponse {
  audio_data : string;
  duration_seconds : Q;
  voice_used : string
}.

Inductive outcome :=
  | Ok (response : SpeakResponse)
  | HTTPException (status_code : Z).

Definition succeeded (o : outcome) : bool :=
  match o with Ok _ => true | HTTPException _ => false end.

(** What the route works on: the quota table of the database, the
    manager of the process ([None] until [get_quota_manager] builds
    it), the engine [get_pyttsx3_engine()] returns (built by
    [_initialize_engine] on first use and shared by all requests), and
    the log. *)
Record world := mkWorld {
  database : Quota.table;
  quota_manager : option Quota.backends;
  engine : Pyttsx3Engine;
  log : list log_record
}.

(** [Pyttsx3Engine.list_voices] *)
Definition list_voices (e : Pyttsx3Engine) : list voice_entry :=
  imap (fun i v => mkEntry i (id v) (name v)) (available_voices e).

(** [Pyttsx3Engine.set_voice] *)
Definition set_voice (e : Pyttsx3Engine) (voice_index : nat)
  : Pyttsx3Engine * list log_record :=
  match available_voices e !! voice_index with
  | Some v =>
      (mkEngine (is_initialized e) (available_voices e) (id v) (rate_property e),
       [info_voice_set (name v)])
  | None => (e, [error_voice_index voice_index])
  end.

(** [Pyttsx3Engine.set_rate] *)
Definition set_rate (e : Pyttsx3Engine) (rate : Z)
  : Pyttsx3Engine * list log_record :=
  (mkEngine (is_initialized e) (available_voices e) (voice_property e) rate,
   [debug_rate_set rate]).

(** The comparison of line 52. *)
Definition voice_matches (requested : string) (v : voice_entry) : bool :=
  bool_decide (lower (entry_name v) = lower requested).

(** Lines 47-58: the first voice whose name matches is set; when none
    matches a warning is logged. *)
Definition select_voice (e : Pyttsx3Engine) (requested : option string)
  : Pyttsx3Engine * list log_record :=
  match requested with
  | None => (e, [])
  | Some v =>
      if bool_decide (v = "") || bool_decide (v = "default") then (e, [])
      else match list_find (fun x => voice_matches v x = true) (list_voices e) with
           | Some (i, _) => set_voice e i
           | None => (e, [warning_voice_not_found v])
           end
  end.

(** The two checks of the text at the head of [speak_text]. *)
Definition text_rejected (txt : string) : bool :=
  (bool_decide (txt = "") || (String.length (strip txt) =? 0)%nat)
  || (5000 <? String.length txt)%nat.

Section Driver.
(** The audio file the driver writes for a text under the engine's
    properties ([None]: the driver raises), reading it back
    ([None]: [read_audio_file] raises), and the base64 encoding; the
    rounding of a product of Python floats, and the reading of the
    database's clock when the manager is built. *)
Variable wav : Type.
Variable fround : Q -> Processor.float.
Variable created : Quota.datetime.
Variable save_to_file : Pyttsx3Engine -> string -> option wav.
Variable read_audio_file : wav -> option (list Z * Z).
Variable b64encode : list Z -> string.

(** [Pyttsx3Engine.speak_to_file] *)
Definition speak_to_file (e : Pyttsx3Engine) (txt : string)
  : option wav * list log_record :=
  if negb (is_initialized e) then (None, [error_saving_speech])
  else match save_to_file e txt with
       | Some f => (Some f, [info_saved_speech])
       | None => (None, [error_saving_speech])
       end.

(** The world a request leaves behind once the manager is in use. *)
Definition with_manager (manager : Quota.QuotaManager) (e : Pyttsx3Engine)
    (l : list log_record) : world :=
  mkWorld (Quota.db manager) (Some (Quota.current_backends manager)) e l.

(** [speak_text]. The rate is computed after the voice is set, so the
    exception of [int] (caught by the last handler) finds the voice
    already changed. *)
Definition speak_text (w : world) (request : SpeakRequest) : outcome * world :=
  if bool_decide (text request = "")
     || (String.length (strip (text request)) =? 0)%nat
  then (HTTPException 400, w)
  else if (5000 <? String.length (text request))%nat
  then (HTTPException 400, w)
  else
    let manager := Quota.get_quota_manager (quota_manager w) (database w) created in
    let '(tts_backend, manager) := Quota.get_best_tts_backend manager in
    match tts_backend with
    | Quota.TTS_PYTTSX3 =>
        let tts_engine := engine w in
        if negb (is_initialized tts_engine)
        then (HTTPException 503, with_manager manager tts_engine (log w))
        else
          let '(tts_engine, log1) := select_voice tts_engine (req_voice request) in
          match py_int (Processor.fmul fround (Processor.Fin 150) (speed request)) with
          | None =>
              (HTTPException 500,
               with_manager manager tts_engine
                 (log w ++ log1 ++ [error_generating_speech]))
          | Some rate =>
              let '(tts_engine, log2) := set_rate tts_engine rate in
              let '(saved, log3) := speak_to_file tts_engine (text request) in
              let log := log w ++ log1 ++ log2 ++ log3 in
              match saved with
              | None => (HTTPException 500, with_manager manager tts_engine log)
              | Some tmp =>
                  match read_audio_file tmp, req_voice request with
                  | Some (samples, sample_rate), Some v =>
                      if sample_rate =? 0
                      then (HTTPException 500,
                            with_manager manager tts_engine
                              (log ++ [error_generating_speech]))
                      else
                        (Ok (mkResponse (b64encode samples)
                               (inject_Z (Z.of_nat (length samples))
                                / inject_Z sample_rate)%Q
                               v),
                         with_manager manager tts_engine
                           (log ++ [info_generated_speech]))
                  | Some (_, sample_rate), None =>
                      if sample_rate =? 0
                      then (HTTPException 500,
                            with_manager manager tts_engine
                              (log ++ [error_generating_speech]))
                      else (HTTPException 500,
                            with_manager manager tts_engine
                              (log ++ [info_generated_speech; error_generating_speech]))
                  | None, _ =>
                      (HTTPException 500,
                       with_manager manager tts_engine
                         (log ++ [error_generating_speech]))
                  end
              end
          end
    | _ => (HTTPException 503, with_manager manager (engine w) (log w))
    end.
End Driver.

(** A driver with two voices, spoken at the default rate, whose files
    hold two samples at 16000 Hz, for the worked example. *)
Definition demo_engine : Pyttsx3Engine :=
  mkEngine true [mkVoice "voice/0" "David"; mkVoice "voice/1" "Zira"] "voice/1" 200.
Definition demo_world : world :=
  mkWorld (Quota.db (Quota.init ∅ 0)) (Some (Quota.current_backends (Quota.init ∅ 0)))
          demo_engine [].
Definition demo_save (e : Pyttsx3Engine) (txt : string) : option unit := Some tt.
Definition demo_read (f : unit) : option (list Z * Z) := Some ([0; 0], 16000).
Definition demo_b64 (samples : list Z) : string := "AAAAAA==".
Definition demo_request : SpeakRequest :=
  mkRequest "Hello" (Some "ALICE") (Processor.Fin 1).

(** A process that has just started on an empty database: the settings
    name the second voice, Zira, as the default; the engine is the one
    [_initialize_engine] builds on a driver that offers David and Zira
    and starts on David; the manager is not built yet. Two requests:
    one for the voice [david], one for a voice the driver does not
    have. *)
Definition configured_settings : TextToSpeechSettings := mkSettings 1 150.
Definition configured_start : Pyttsx3Engine * list log_record :=
  _initialize_engine configured_settings
    [mkVoice "voice/0" "David"; mkVoice "voice/1" "Zira"] "voice/0".
Definition configured_engine : Pyttsx3Engine := configured_start.1.
Definition configured_world : world :=
  mkWorld ∅ None configured_engine configured_start.2.
Definition david_request : SpeakRequest :=
  mkRequest "Good morning" (Some "david") (Processor.Fin 1).


End Voice.

(** ** Quota manager: status and switching *)

Module Manager.
Import Quota.

#[global] Instance AIBackend_eq_dec : EqDecision AIBackend.
Proof. solve_decision. Defined.
#[global] Instance STTBackend_eq_dec : EqDecision STTBackend.
Proof. solve_decision. Defined.
#[global] Instance TTSBackend_eq_dec : EqDecision TTSBackend.
Proof. solve_decision. Defined.

(** [sub in s] on strings. *)
Fixpoint contains (sub s : string) : bool :=
  String.prefix sub s ||
  match s with
  | EmptyString => false
  | String _ s' => contains sub s'
  end.

(** A value of the dictionary [get_quota_status] returns. *)
Record quota_status := mkStatus {
  available : bool;
  calls_remaining : Z;
  current_backend : option AIBackend
}.

(** Body of the loop of [get_quota_status]. *)
Definition status_step (now : string -> datetime)
    (acc : list (string * quota_status) * QuotaManager)
    (quota : string * quota_limit) : list (string * quota_status) * QuotaManager :=
  let '(status, m) := acc in
  let '(service, _) := quota in
  let '((ok, remaining), db') := check_quota (db m) service (now service) in
  (status ++ [(service,
               mkStatus ok remaining
                 (if contains "ai" service
                  then Some (ai (current_backends m)) else None))],
   mkManager db' (current_backends m)).

(** [get_quota_status]: the services in the order of [DEFAULT_QUOTAS];
    [now service] is the moment at which the service is checked. *)
Definition get_quota_status (m : QuotaManager) (now : string -> datetime)
  : list (string * quota_status) * QuotaManager :=
  foldl (status_step now) ([], m) DEFAULT_QUOTAS.

(** [AIBackend.value] *)
Definition ai_value (b : AIBackend) : string :=
  match b with
  | AI_HUGGINGFACE => "huggingface"
  | AI_OLLAMA => "ollama"
  | AI_FALLBACK => "fallback"
  end.

(** [should_switch_backend]: the comparison reads [current_backends]
    after the call that selects the best backend. *)
Definition should_switch_backend (m : QuotaManager) (service_type : string)
    (now : datetime) : bool * QuotaManager :=
  if bool_decide (service_type = "ai") then
    let '(best, m') := get_best_ai_backend m now in
    (bool_decide (best <> ai (current_backends m')), m')
  else if bool_decide (service_type = "stt") then
    let '(best, m') := get_best_stt_backend m false now in
    (bool_decide (best <> stt (current_backends m')), m')
  else if bool_decide (service_type = "tts") then
    let '(best, m') := get_best_tts_backend m in
    (bool_decide (best <> tts (current_backends m')), m')
  else (false, m).

End Manager.

(** ** Hugging Face client *)

Module HuggingFace.
Import Quota.

(** [class HuggingFaceClient]: [is_initialized] is [bool(api_key)]. *)
Record HuggingFaceClient := mkClient {
  api_key : option string;
  model_id : string
}.

Definition is_initialized (c : HuggingFaceClient) : bool :=
  match api_key c with
  | Some k => negb (bool_decide (k = ""))
  | None => false
  end.

(** A message of the conversation history: [msg.get("role")] and
    [msg.get('content', '')]. *)
Record message := mkMessage {
  role : option string;
  content : option string
}.

(** [context[-5:]] *)
Definition last_five {A} (l : list A) : list A := drop (length l - 5) l.

(** [_prepare_prompt]; [None] and the empty list are both falsy. *)
Definition _prepare_prompt (msg : string) (context : option (list message)) : string :=
  match context with
  | None | Some [] => msg
  | Some ctx =>
      foldl (fun prompt m =>
               if bool_decide (role m = Some "user")
               then String.append "User: "
                      (String.append (default "" (content m))
                         (String.append (String (Ascii.ascii_of_nat 10) "") prompt))
               else prompt)
            msg (last_five ctx)
  end.

(** [s[n:]] *)
Fixpoint string_drop (n : nat) (s : string) : string :=
  match n, s with
  | O, _ => s
  | S n', String _ s' => string_drop n' s'
  | S _, EmptyString => EmptyString
  end.

(** [_extract_response] *)
Definition _extract_response (generated_text prompt : string) : string :=
  if String.prefix prompt generated_text
  then Voice.strip (string_drop (String.length prompt) generated_text)
  else Voice.strip generated_text.

(** A string that does not begin with white space. *)
Definition clean_start (s : string) : Prop :=
  match s with
  | EmptyString => True
  | String c _ => Voice.is_space c = false
  end.

(** A string that does not end with white space. *)
Definition clean_end (s : string) : Prop := clean_start (String.rev s).

(** [_check_quota]: a missing row is created and committed, with the
    column defaults of the database: [last_reset_date] is the reading
    [created] of the database's clock, not the client's [now]. The
    reset of a new day is made on the object only, the session is
    closed without a commit. *)
Definition _check_quota (db : table) (service : string) (now created : datetime)
  : bool * table :=
  let '(tracker, db) :=
    match db !! service with
    | Some tracker => (tracker, db)
    | None =>
        let tracker := mkTracker service 0 1000 created false None in
        (tracker, <[service := tracker]> db)
    end in
  let tracker :=
    if 0 <? timedelta_days now (last_reset_date tracker)
    then mkTracker (service_name tracker) 0 (daily_limit tracker) now
                   (is_quota_exceeded tracker) (updated_at tracker)
    else tracker in
  (daily_calls tracker <? daily_limit tracker, db).

(** [_track_quota] *)
Definition _track_quota (db : table) (service : string) (now : datetime) : table :=
  match db !! service with
  | Some tracker =>
      let calls := daily_calls tracker + 1 in
      <[service := mkTracker (service_name tracker) calls (daily_limit tracker)
                     (last_reset_date tracker)
                     (daily_limit tracker <=? calls) (Some (assigned now))]> db
  | None => db
  end.

(** The body of a reply, as [response.json()] parses it. *)
#[warnings="-register-all"] Inductive json :=
  | JNull
  | JBool (b : bool)
  | JNumber (n : Q)
  | JString (s : string)
  | JList (items : list json)
  | JDict (fields : list (string * json)).

(** [d[key]] for a key of the dictionary. *)
Fixpoint dict_get (fields : list (string * json)) (key : string) : option json :=
  match fields with
  | [] => None
  | (k, v) :: rest => if bool_decide (k = key) then Some v else dict_get rest key
  end.

(** A reply of the inference API: the status code and the parsed body
    ([None]: the body is no JSON and [response.json()] raises). *)
Record response := mkReply {
  status_code : Z;
  body : option json
}.

Section Api.
(** [requests.post] on the prompt; [None]: the call raises (time-out,
    no connection). *)
Variable post : HuggingFaceClient -> string -> option response.

(** [chat]: the answer and the table after the call; the clock is read
    at the check of the quota ([now], and [created] on the database's
    clock if the row is inserted) and again when the usage is
    tracked. *)
Definition chat (c : HuggingFaceClient) (db : table) (msg : string)
    (session_context : option (list message)) (now created later : datetime)
  : (string * bool) * table :=
  if negb (is_initialized c) then (("", false), db)
  else
    let '(ok, db) := _check_quota db "huggingface" now created in
    if negb ok then (("", false), db)
    else
      let prompt := _prepare_prompt msg session_context in
      match post c prompt with
      | None => (("", false), db)
      | Some reply =>
          if status_code reply =? 200 then
            match body reply with
            | None => (("", false), db)
            | Some (JList (JDict fields :: _)) =>
                match dict_get fields "generated_text" with
                | Some (JString generated_text) =>
                    let response_text := _extract_response generated_text prompt in
                    ((response_text, true), _track_quota db "huggingface" later)
                | Some _ => (("", false), db)
                | None => (("", false), db)
                end
            | Some _ => (("", false), db)
            end
          else (("", false), db)
      end.
End Api.

(** A client with a key and an API that echoes the prompt and adds a
    reply, for the worked examples. *)
Definition demo_client : HuggingFaceClient := mkClient (Some "hf_key") "zephyr".
Definition demo_post (c : HuggingFaceClient) (prompt : string) : option response :=
  Some (mkReply 200
          (Some (JList [JDict [("generated_text",
                                JString (String.append prompt " Hello there. "))]]))).

End HuggingFace.

(** ** Conversation route *)

Module Conversation.
Import Quota.

Record ChatRequest := mkChatRequest {
  message : string;
  session_id : option string;
  include_context : bool
}.

Record ChatResponse := mkChatResponse {
  response : string;
  response_session_id : string;
  backend_used : string
}.

Inductive outcome :=
  | Ok (r : ChatResponse)
  | HTTPException (status_code : Z).

Definition fallback_text : string :=
  "I'm having trouble understanding that right now. Please try again.".

(** The readings of the clock of one request: in
    [get_best_ai_backend], in the client's [_check_quota] and
    [_track_quota], and in [track_usage]; [at_create] is the reading of
    the database's clock if the client inserts the row. *)
Record clock := mkClock {
  at_select : datetime;
  at_check : datetime;
  at_create : datetime;
  at_client_track : datetime;
  at_track : datetime
}.

(** The session the answer names: the one of the request, or a new
    one when the request has none. *)
Definition session_of (new_uuid : string) (request : ChatRequest) : string :=
  match session_id request with
  | Some s => if bool_decide (s = "") then new_uuid else s
  | None => new_uuid
  end.

Section Route.
Variable post : HuggingFace.HuggingFaceClient -> string -> option HuggingFace.response.
(** [str(uuid.uuid4())] *)
Variable new_uuid : string.

(** [chat]: the quota manager and the client work on the same table. *)
Definition chat (m : QuotaManager) (c : HuggingFace.HuggingFaceClient)
    (request : ChatRequest) (t : clock) : outcome * QuotaManager :=
  let session := session_of new_uuid request in
  if bool_decide (message request = "")
     || (String.length (Voice.strip (message request)) =? 0)%nat
  then (HTTPException 400, m)
  else if (5000 <? String.length (message request))%nat
  then (HTTPException 400, m)
  else
    let '(best_backend, m) := get_best_ai_backend m (at_select t) in
    let context : list HuggingFace.message := [] in
    let '((response_text, success), db') :=
      HuggingFace.chat post c (db m) (message request) (Some context)
        (at_check t) (at_create t) (at_client_track t) in
    if negb success || bool_decide (response_text = "")
    then (Ok (mkChatResponse fallback_text session "fallback"),
          mkManager db' (current_backends m))
    else (Ok (mkChatResponse response_text session (Manager.ai_value best_backend)),
          mkManager (track_usage db' "huggingface" 1 (at_track t)) (current_backends m)).
End Route.

(** A request and a clock for the worked examples. *)
Definition demo_request : ChatRequest := mkChatRequest "Hi" None true.
Definition demo_clock : clock :=
  mkClock day1_01h day1_01h day1_01h day1_01h day1_01h.
Definition demo_manager : QuotaManager := init ∅ day0_23h.

End Conversation.

(** ** Audio processor: resampling and silence *)

Module Signal.
Import Processor.

(** Comparison of floats: false as soon as a NaN is involved. *)
Definition flt (a b : float) : bool :=
  match a, b with
  | NaN, _ | _, NaN => false
  | Infinity s, Infinity t => s && negb t
  | Infinity s, Fin _ => s
  | Fin _, Infinity t => negb t
  | Fin p, Fin q => negb (Qle_bool q p)
  end.

(** The built-in [min(a, b)] and [max(a, b)]: the first argument
    unless the second is strictly smaller (larger). *)
Definition py_min (a b : float) : float := if flt b a then b else a.
Definition py_max (a b : float) : float := if flt a b then b else a.

Section FloatingPoint.
Variable fround : Q -> float.
Variable invalid_cast : float -> Z.

(** Division of a float by a positive constant. *)
Definition fdiv_const (a : float) (c : Q) : float :=
  match a with
  | Fin p => fround (p / c)
  | _ => a
  end.

(** [audio_data.astype(np.float32) / 32768.0] *)
Definition to_unit (s : Z) : float := fdiv_const (astype_float32 s) 32768.

(** [librosa.resample]; [None]: it raises. *)
Variable librosa_resample : list float -> Z -> Z -> option (list float).

(** [resample_audio] *)
Definition resample_audio (audio_data : frame) (orig_sr target_sr : Z) : frame :=
  if orig_sr =? target_sr then audio_data
  else
    let audio_float := to_unit <$> audio_data in
    match librosa_resample audio_float orig_sr target_sr with
    | None => audio_data
    | Some resampled =>
        (fun x => astype_int16 invalid_cast
                    (clip (fmul fround x (Fin 32767)) (-32768 # 1) (32767 # 1)))
          <$> resampled
    end.

(** [librosa.feature.melspectrogram] followed by [power_to_db]: only
    whether they raise matters, the result is not used. *)
Variable melspectrogram_raises : list float -> Z -> bool.
(** [np.sqrt(np.mean(audio_float ** 2))] and [20 * np.log10(energy)] *)
Variable energy_of : list float -> float.
Variable decibels : float -> float.

(** [remove_silence] *)
Definition remove_silence (audio_data : frame) (sample_rate : Z)
    (threshold_db : float) : frame :=
  let audio_float := to_unit <$> audio_data in
  if melspectrogram_raises audio_float sample_rate then audio_data
  else
    let energy := energy_of audio_float in
    let energy_db := if flt (Fin 0) energy then decibels energy else Infinity true in
    if flt energy_db threshold_db then [] else audio_data.

End FloatingPoint.

(** A list of chunks as [split_audio_chunks] produces them for chunks
    of [c] samples: full chunks, then at most one shorter, non-empty one. *)
Fixpoint well_chunked (c : nat) (chunks : list frame) : Prop :=
  match chunks with
  | [] => True
  | [last] => (0 < length last <= c)%nat
  | chunk :: rest => length chunk = c /\ well_chunked c rest
  end.

End Signal.

(** ** Speech synthesis: volume, preview and voice list *)

Module VoiceRoutes.
Import Voice.

(** [Pyttsx3Engine.set_volume]: the value handed to the driver,
    [max(0.0, min(1.0, volume))]. *)
Definition set_volume (volume : Processor.float) : Processor.float :=
  Signal.py_max (Processor.Fin 0) (Signal.py_min (Processor.Fin 1) volume).

(** [text[:200]] *)
Definition first_200 (txt : string) : string := String.substring 0 200 txt.

(** [preview_voice]: the text defaults to the greeting and is cut to
    200 characters; the request is spoken at speed 1.0. *)
Definition preview_text (txt : string) : string :=
  let txt := if bool_decide (txt = "") then "Hello, this is a voice preview" else txt in
  if (200 <? String.length txt)%nat then first_200 txt else txt.

Section Driver.
Variable wav : Type.
Variable fround : Q -> Processor.float.
Variable created : Quota.datetime.
Variable save_to_file : Pyttsx3Engine -> string -> option wav.
Variable read_audio_file : wav -> option (list Z * Z).
Variable b64encode : list Z -> string.

Definition preview_voice (w : world) (voice_name txt : string) : outcome * world :=
  speak_text wav fround created save_to_file read_audio_file b64encode w
    (mkRequest (preview_text txt) (Some voice_name) (Processor.Fin 1)).
End Driver.

(** The answer of route [/voices]: the entries, their count and the
    default index; 503 when the engine is not initialised. *)
Definition list_voices_route (e : Pyttsx3Engine)
  : option (list voice_entry * nat * nat) :=
  if negb (is_initialized e) then None
  else Some (list_voices e, length (list_voices e), 0%nat).

End VoiceRoutes.

(** * Properties *)

(** ** Quota manager *)

Module QuotaFacts.
Import Quota.

Lemma new_day_true now tracker :
  new_day now tracker = true <-> last_reset_date tracker + us_per_day <= now.
Proof.
  unfold new_day, timedelta_days, us_per_day. rewrite Z.leb_le. split; intros H.
  - assert (86400000000 * 1 <= now - last_reset_date tracker); [|lia].
    etransitivity; [apply Z.mul_le_mono_nonneg_l; [lia | exact H]|].
    apply Z.mul_div_le. lia.
  - apply Z.div_le_lower_bound; lia.
Qed.

Lemma new_day_false now tracker :
  new_day now tracker = false <-> now < last_reset_date tracker + us_per_day.
Proof.
  rewrite <- not_true_iff_false, new_day_true. lia.
Qed.

Lemma same_date_not_new_day now tracker :
  date (last_reset_date tracker) = date now -> new_day now tracker = false.
Proof.
  unfold date, us_per_day. intros Hd. apply new_day_false. unfold us_per_day.
  pose proof (Z.div_mod now 86400000000 ltac:(lia)) as Hn.
  pose proof (Z.div_mod (last_reset_date tracker) 86400000000 ltac:(lia)) as Hl.
  pose proof (Z.mod_pos_bound now 86400000000 ltac:(lia)).
  pose proof (Z.mod_pos_bound (last_reset_date tracker) 86400000000 ltac:(lia)).
  lia.
Qed.

Lemma check_quota_None db service now :
  db !! service = None -> check_quota db service now = ((true, 999999), db).
Proof. intros H. unfold check_quota. by rewrite H. Qed.

Lemma check_quota_rollover db service now tracker :
  db !! service = Some tracker -> new_day now tracker = true ->
  check_quota db service now =
    ((0 <? daily_limit tracker, Z.max 0 (daily_limit tracker - 0)),
     <[service := reset_tracker now tracker]> db).
Proof. intros H Hn. unfold check_quota. by rewrite H, Hn. Qed.

Lemma check_quota_same_day db service now tracker :
  db !! service = Some tracker -> new_day now tracker = false ->
  check_quota db service now =
    ((daily_calls tracker <? daily_limit tracker,
      Z.max 0 (daily_limit tracker - daily_calls tracker)), db).
Proof. intros H Hn. unfold check_quota. by rewrite H, Hn. Qed.

(** What the rollover test of the code does: the counter is reset
    exactly when 24 hours have passed since the last reset. *)
Lemma check_quota_resets_after_24h db service now tracker :
  db !! service = Some tracker ->
  last_reset_date tracker + us_per_day <= now ->
  exists tracker',
    (check_quota db service now).2 !! service = Some tracker'
    /\ daily_calls tracker' = 0 /\ last_reset_date tracker' = now.
Proof.
  intros H Hn. apply new_day_true in Hn.
  rewrite (check_quota_rollover _ _ _ _ H Hn). simpl.
  exists (reset_tracker now tracker). by rewrite lookup_insert_eq.
Qed.

Lemma check_quota_same_date_keeps db service now tracker :
  db !! service = Some tracker ->
  date (last_reset_date tracker) = date now ->
  (check_quota db service now).2 = db.
Proof.
  intros H Hd. apply same_date_not_new_day in Hd.
  by rewrite (check_quota_same_day _ _ _ _ H Hd).
Qed.

Example check_quota_two_days_later :
  (check_quota exhausted_db "huggingface" day2_23h).1 = (true, 1000).
Proof. by vm_compute. Qed.

(** C1, at 01:00 of the day after a reset at 23:00: the stored date is
    an earlier calendar date, yet [check_quota] keeps the exhausted
    counter as it is and answers that no call remains. *)
Theorem check_quota_next_morning_not_reset :
  date day0_23h < date day1_01h
  /\ exhausted_db !! "huggingface"
     = Some (mkTracker "huggingface" 1000 1000 day0_23h true (Some (assigned day0_23h)))
  /\ check_quota exhausted_db "huggingface" day1_01h = ((false, 0), exhausted_db).
Proof.
  split; [reflexivity|]. split; [by vm_compute|].
  apply (check_quota_same_day _ _ _ (mkTracker "huggingface" 1000 1000 day0_23h true (Some (assigned day0_23h))));
    by vm_compute.
Qed.

(** The flag is consistent on a row as it is created and after every
    [track_usage]. *)
Lemma new_tracker_consistent service limit now :
  0 < limit_column limit -> flag_consistent (new_tracker service limit now).
Proof.
  intros H. unfold flag_consistent. simpl. symmetry. apply Z.leb_gt. exact H.
Qed.

Lemma track_tracker_consistent units now tracker :
  flag_consistent (track_tracker units now tracker).
Proof. reflexivity. Qed.

Lemma track_usage_consistent db service units now tracker :
  track_usage db service units now !! service = Some tracker ->
  flag_consistent tracker.
Proof.
  unfold track_usage. destruct (db !! service) as [t|] eqn:E.
  - rewrite lookup_insert_eq. intros [= <-]. apply track_tracker_consistent.
  - congruence.
Qed.

(** C2, on the table in which [huggingface] has used its 1000 calls:
    the flag is consistent after the [track_usage] that set it, and a
    [check_quota] two days later resets the calls to 0 but leaves the
    flag raised, so the invariant is broken by the rollover. *)
Theorem rollover_leaves_flag_stale :
  (exists tracker, exhausted_db !! "huggingface" = Some tracker
                   /\ flag_consistent tracker)
  /\ exists tracker',
      (check_quota exhausted_db "huggingface" day2_23h).2 !! "huggingface"
        = Some tracker'
      /\ daily_calls tracker' = 0
      /\ daily_limit tracker' = 1000
      /\ is_quota_exceeded tracker' = true
      /\ ~ flag_consistent tracker'.
Proof.
  split.
  - eexists. split; [by vm_compute | reflexivity].
  - eexists. split; [by vm_compute|]. repeat split. unfold flag_consistent. simpl. discriminate.
Qed.

Lemma track_each_lookup times : forall db service tracker,
  db !! service = Some tracker ->
  exists tracker',
    track_each db service times !! service = Some tracker'
    /\ daily_calls tracker' = daily_calls tracker + Z.of_nat (length times)
    /\ daily_limit tracker' = daily_limit tracker
    /\ last_reset_date tracker' = last_reset_date tracker.
Proof.
  induction times as [|now times IH]; intros db service tracker H.
  - exists tracker. simpl. repeat split; [done | lia].
  - unfold track_each. simpl. fold (track_each (track_usage db service 1 now) service times).
    destruct (IH (track_usage db service 1 now) service (track_tracker 1 now tracker))
      as (t' & Hl & Hc & Hlim & Hr).
    { unfold track_usage. rewrite H. apply lookup_insert_eq. }
    exists t'. split; [exact Hl|]. simpl in *. repeat split; [lia | done | done].
Qed.

(** C3: a counter with limit [L] and no usage answers [(true, L)];
    after [L] calls of [track_usage(service, 1)] and without a rollover
    at the check, the answer is [(false, 0)]. *)
Theorem check_quota_fresh_then_used_up db service tracker (L : Z)
    (times : list datetime) (now now' : datetime) :
  db !! service = Some tracker ->
  daily_calls tracker = 0 ->
  daily_limit tracker = L ->
  0 < L ->
  Z.of_nat (length times) = L ->
  timedelta_days now' (last_reset_date tracker) < 1 ->
  (check_quota db service now).1 = (true, L)
  /\ (check_quota (track_each db service times) service now').1 = (false, 0).
Proof.
  intros H Hc Hl HL Hn Hroll. split.
  - destruct (new_day now tracker) eqn:E.
    + rewrite (check_quota_rollover _ _ _ _ H E). simpl. rewrite Hl.
      f_equal; [by apply Z.ltb_lt | lia].
    + rewrite (check_quota_same_day _ _ _ _ H E). simpl. rewrite Hc, Hl.
      f_equal; [by apply Z.ltb_lt | lia].
  - destruct (track_each_lookup times _ _ _ H) as (t' & Ht' & Hc' & Hl' & Hr').
    assert (new_day now' t' = false) as E.
    { unfold new_day. rewrite Hr'. apply Z.leb_gt. lia. }
    rewrite (check_quota_same_day _ _ _ _ Ht' E). simpl.
    rewrite Hc', Hl', Hc, Hl, Hn. f_equal; [apply Z.ltb_irrefl | lia].
Qed.

Lemma check_quota_fresh_then_used_up_witness :
  (check_quota small_db "demo" day0_23h).1 = (true, 3)
  /\ (check_quota (track_each small_db "demo" [day0_23h; day0_23h; day1_01h])
        "demo" day1_01h).1 = (false, 0).
Proof.
  apply (check_quota_fresh_then_used_up small_db "demo"
           (mkTracker "demo" 0 3 day0_23h false None) 3
           [day0_23h; day0_23h; day1_01h] day0_23h day1_01h);
    reflexivity.
Defined.

(** The rows [_initialize_quota_trackers] adds. *)
Lemma initialize_creates db now service limit :
  (service, limit) ∈ DEFAULT_QUOTAS ->
  db !! service = None ->
  _initialize_quota_trackers db now !! service = Some (new_tracker service limit now).
Proof.
  intros Hin Hnone. unfold _initialize_quota_trackers, DEFAULT_QUOTAS in *. simpl.
  repeat (apply elem_of_cons in Hin as [[= -> ->]|Hin]);
    [ .. | by apply elem_of_nil in Hin ];
    repeat case_match; simplify_map_eq; done.
Qed.

Lemma initialize_keeps db now service tracker :
  db !! service = Some tracker ->
  _initialize_quota_trackers db now !! service = Some tracker.
Proof.
  intros H. unfold _initialize_quota_trackers, DEFAULT_QUOTAS. simpl.
  repeat case_match; simplify_map_eq; done.
Qed.

(** C4, as stated, fails: [azure] is not a configured service, the
    table of the manager has no counter for it, and has none after a
    [check_quota] either. *)
Lemma check_quota_creates_no_counter :
  fresh_db !! "azure" = None
  /\ (check_quota fresh_db "azure" day0_23h).2 !! "azure" = None.
Proof. split; by vm_compute. Qed.

(** C4, amended: on a table without a counter for the service,
    [check_quota] answers [(true, 999999)] and leaves the table as it
    is; the counters, with the configured limit (999999 for an unlimited
    service) and no usage, are created by the initialisation of the
    manager, for the configured services. *)
Theorem check_quota_absent_unlimited db service now :
  db !! service = None ->
  check_quota db service now = ((true, 999999), db)
  /\ forall limit, (service, limit) ∈ DEFAULT_QUOTAS ->
       exists tracker,
         Quota.db (init db now) !! service = Some tracker
         /\ daily_calls tracker = 0
         /\ daily_limit tracker = limit_column limit.
Proof.
  intros H. split; [by apply check_quota_None|].
  intros limit Hin. exists (new_tracker service limit now). split; [|done].
  by apply initialize_creates.
Qed.

Lemma check_quota_absent_unlimited_witness :
  check_quota ∅ "ollama" day0_23h = ((true, 999999), ∅)
  /\ forall limit, ("ollama", limit) ∈ DEFAULT_QUOTAS ->
       exists tracker,
         Quota.db (init ∅ day0_23h) !! "ollama" = Some tracker
         /\ daily_calls tracker = 0
         /\ daily_limit tracker = limit_column limit.
Proof.
  apply (check_quota_absent_unlimited ∅ "ollama" day0_23h). reflexivity.
Defined.

(** C5: [get_best_ai_backend] answers HuggingFace when [check_quota]
    finds its quota available and Ollama otherwise, never the canned
    fallback, and records its answer as the current backend. *)
Theorem get_best_ai_backend_cloud_then_local (m : QuotaManager) (now : datetime) :
  (get_best_ai_backend m now).1
    = (if (check_quota (db m) "huggingface" now).1.1
       then AI_HUGGINGFACE else AI_OLLAMA)
  /\ (get_best_ai_backend m now).1 <> AI_FALLBACK
  /\ ai (current_backends (get_best_ai_backend m now).2) = (get_best_ai_backend m now).1
  /\ db (get_best_ai_backend m now).2 = (check_quota (db m) "huggingface" now).2.
Proof.
  unfold get_best_ai_backend.
  assert (forall ok rem, (check_quota (db m) "huggingface" now).1 = (ok, rem) ->
                         ok = true -> (0 <? rem) = true) as Hpos.
  { intros ok rem. unfold check_quota.
    destruct (db m !! "huggingface") as [t|]; [|by intros [= <- <-]].
    destruct (new_day now t); simpl; intros [= <- <-] Hlt%Z.ltb_lt;
      apply Z.ltb_lt; simpl in *; lia. }
  destruct (check_quota (db m) "huggingface" now) as [[ok rem] db'].
  specialize (Hpos ok rem eq_refl). simpl.
  destruct ok; simpl.
  - rewrite (Hpos eq_refl). by simpl.
  - done.
Qed.

(** C10: [track_usage] for a service without a counter leaves the
    table as it is. *)
Theorem track_usage_absent db service units now :
  db !! service = None -> track_usage db service units now = db.
Proof. intros H. unfold track_usage. by rewrite H. Qed.

Lemma track_usage_absent_witness :
  track_usage fresh_db "azure" 1 day1_01h = fresh_db.
Proof. apply (track_usage_absent fresh_db "azure" 1 day1_01h). by vm_compute. Defined.

End QuotaFacts.

(** ** Audio processor *)

Module ProcessorFacts.
Import Processor.

(** *** Chunking *)

Lemma slice_forward {A} (a : list A) (i c : Z) :
  0 <= i -> 0 < c ->
  slice a i (i + c) = take (Z.to_nat c) (drop (Z.to_nat i) a).
Proof.
  intros Hi Hc. unfold slice, slice_index.
  destruct (i <? 0) eqn:E1; [apply Z.ltb_lt in E1; lia|].
  destruct (i + c <? 0) eqn:E2; [apply Z.ltb_lt in E2; lia|].
  set (n := length a).
  destruct (decide (Z.of_nat n <= i)) as [Hge|Hlt].
  - rewrite !drop_ge by (fold n; lia). by rewrite !take_nil.
  - replace (Z.to_nat (i `min` Z.of_nat n)) with (Z.to_nat i) by lia.
    destruct (decide (i + c <= Z.of_nat n)) as [Hin|Hout].
    + f_equal. lia.
    + rewrite !take_ge; [done | | ]; rewrite length_drop; fold n; lia.
Qed.

Lemma length_chunk_at a c j :
  length (chunk_at a c j) = (c `min` (length a - j * c))%nat.
Proof. unfold chunk_at. by rewrite length_take, length_drop. Qed.

Lemma concat_chunks_take a c k :
  concat (chunk_at a c <$> seq 0 k) = take (k * c) a.
Proof.
  induction k as [|k IH]; [done|].
  rewrite seq_S, fmap_app, concat_app, IH. simpl. rewrite app_nil_r.
  unfold chunk_at. rewrite take_take_drop. f_equal. lia.
Qed.

(** The loop, after [k] starts that all lie inside the frame. *)
Lemma loop_chunks a (c : Z) (k : nat) :
  0 < c ->
  (Z.of_nat k - 1) * c < Z.of_nat (length a) ->
  foldl (append_chunk a c) [] ((fun j : nat => 0 + Z.of_nat j * c) <$> seq 0 k)
  = chunk_at a (Z.to_nat c) <$> seq 0 k.
Proof.
  intros Hc. induction k as [|k IH]; intros Hk; [done|].
  rewrite seq_S, !fmap_app, foldl_app, IH by nia. simpl.
  unfold append_chunk. rewrite slice_forward by lia.
  replace (Z.to_nat (0 + Z.of_nat k * c)) with (k * Z.to_nat c)%nat by nia.
  fold (chunk_at a (Z.to_nat c) k).
  assert (0 < length (chunk_at a (Z.to_nat c) k))%nat as Hpos.
  { rewrite length_chunk_at. nia. }
  apply Nat.ltb_lt in Hpos. by rewrite Hpos.
Qed.

Lemma range_len_ceil n c :
  0 <= n -> 0 < c ->
  range_len 0 n c = n `div` c + (if n `mod` c =? 0 then 0 else 1).
Proof.
  intros Hn Hc. unfold range_len.
  replace (0 <? c) with true by (symmetry; by apply Z.ltb_lt).
  pose proof (Z.div_mod n c ltac:(lia)) as Hdm.
  pose proof (Z.mod_pos_bound n c Hc) as Hb.
  destruct (0 <? n) eqn:E.
  - apply Z.ltb_lt in E. destruct (n `mod` c =? 0) eqn:Er.
    + apply Z.eqb_eq in Er.
      assert ((n - 0 - 1) `div` c = n `div` c - 1) as ->; [|lia].
      symmetry. apply (Z.div_unique_pos _ _ _ (c - 1)); lia.
    + apply Z.eqb_neq in Er.
      assert ((n - 0 - 1) `div` c = n `div` c) as ->; [|lia].
      symmetry. apply (Z.div_unique_pos _ _ _ (n `mod` c - 1)); lia.
  - apply Z.ltb_ge in E. assert (n = 0) as -> by lia.
    by rewrite Z.div_0_l, Z.mod_0_l by lia.
Qed.

(** The chunks [split_audio_chunks] returns, in closed form. *)
Lemma split_audio_chunks_eq a sr d :
  0 < chunk_size sr d ->
  split_audio_chunks a sr d
  = Some (chunk_at a (Z.to_nat (chunk_size sr d))
            <$> seq 0 (Z.to_nat (range_len 0 (Z.of_nat (length a)) (chunk_size sr d)))).
Proof.
  intros Hc. unfold split_audio_chunks, py_range.
  destruct (chunk_size sr d =? 0) eqn:E; [apply Z.eqb_eq in E; lia|].
  f_equal. apply loop_chunks; [done|].
  set (c := chunk_size sr d) in *. set (n := Z.of_nat (length a)).
  rewrite range_len_ceil by lia.
  pose proof (Z.div_mod n c ltac:(lia)) as Hdm.
  pose proof (Z.mod_pos_bound n c Hc) as Hb.
  assert (0 <= n `div` c) by (apply Z.div_pos; lia).
  destruct (n `mod` c =? 0) eqn:Er.
  - apply Z.eqb_eq in Er. rewrite Z2Nat.id by lia. nia.
  - rewrite Z2Nat.id by lia. nia.
Qed.

Lemma split_audio_chunks_zero a sr d :
  chunk_size sr d = 0 -> split_audio_chunks a sr d = None.
Proof. intros H. unfold split_audio_chunks, py_range. by rewrite H. Qed.

Example split_audio_chunks_five :
  split_audio_chunks [1; -2; 3; -4; 5] 1000 2 = Some [[1; -2]; [3; -4]; [5]].
Proof. reflexivity. Qed.

Example split_audio_chunks_negative_rate :
  split_audio_chunks [1; -2; 3] (-1000) 2 = Some [].
Proof. reflexivity. Qed.

Lemma concatenate_chunks_concat chunks : concatenate_chunks chunks = concat chunks.
Proof. by destruct chunks. Qed.

Lemma split_then_concatenate_equation a sr d :
  0 < chunk_size sr d ->
  concat (chunk_at a (Z.to_nat (chunk_size sr d))
            <$> seq 0 (Z.to_nat (range_len 0 (Z.of_nat (length a)) (chunk_size sr d))))
  = a.
Proof.
  intros Hc. rewrite concat_chunks_take. apply take_ge.
  set (c := chunk_size sr d) in *. set (n := Z.of_nat (length a)).
  assert (n <= range_len 0 n c * c) as Hle.
  { rewrite range_len_ceil by lia.
    pose proof (Z.div_mod n c ltac:(lia)) as Hdm.
    pose proof (Z.mod_pos_bound n c Hc) as Hb.
    destruct (n `mod` c =? 0) eqn:Er; [apply Z.eqb_eq in Er|]; nia. }
  assert (0 <= range_len 0 n c).
  { rewrite range_len_ceil by lia.
    assert (0 <= n `div` c) by (apply Z.div_pos; lia). case_match; lia. }
  subst n. nia.
Qed.

(** C6, as stated, fails: at 500 Hz a chunk of 1 ms has no sample,
    [range] refuses the zero step and nothing is returned. *)
Lemma round_trip_fails_on_empty_chunk :
  0 < 1 /\ chunk_size 500 1 = 0 /\ split_then_concatenate [7; 8; 9] 500 1 = None.
Proof. repeat split. Qed.

(** C6, amended: whenever the chunk size is at least one sample,
    concatenating the chunks of a frame gives the frame back. *)
Theorem split_then_concatenate_round_trip (audio_data : frame) (sample_rate d : Z) :
  0 < chunk_size sample_rate d ->
  split_then_concatenate audio_data sample_rate d = Some audio_data.
Proof.
  intros Hc. unfold split_then_concatenate.
  rewrite (split_audio_chunks_eq _ _ _ Hc). simpl. f_equal.
  rewrite concatenate_chunks_concat. by apply split_then_concatenate_equation.
Qed.

Lemma split_then_concatenate_round_trip_witness :
  split_then_concatenate [1; -2; 3; -4; 5] 1000 2 = Some [1; -2; 3; -4; 5].
Proof.
  apply (split_then_concatenate_round_trip [1; -2; 3; -4; 5] 1000 2). reflexivity.
Defined.

Lemma sizes_full_chunks a (c q : nat) :
  (q * c <= length a)%nat ->
  sizes (chunk_at a c <$> seq 0 q) = replicate q (Z.of_nat c).
Proof.
  unfold sizes. induction q as [|q IH]; intros Hq; [done|].
  rewrite seq_S, !fmap_app, IH by lia. rewrite replicate_S_end. simpl.
  rewrite length_chunk_at. do 2 f_equal. lia.
Qed.

Lemma sizes_chunks a sr d :
  0 < chunk_size sr d ->
  let c := chunk_size sr d in
  let n := Z.of_nat (length a) in
  sizes (chunk_at a (Z.to_nat c) <$> seq 0 (Z.to_nat (range_len 0 n c)))
  = replicate (Z.to_nat (n `div` c)) c
    ++ (if n `mod` c =? 0 then [] else [n `mod` c]).
Proof.
  intros Hc c n. fold c in Hc.
  rewrite range_len_ceil by lia.
  pose proof (Z.div_mod n c ltac:(lia)) as Hdm.
  pose proof (Z.mod_pos_bound n c Hc) as Hb.
  assert (0 <= n `div` c) as Hq by (apply Z.div_pos; lia).
  assert (Z.to_nat (n `div` c) * Z.to_nat c <= length a)%nat as Hfull by nia.
  destruct (n `mod` c =? 0) eqn:Er.
  - rewrite Z.add_0_r, app_nil_r, sizes_full_chunks by done.
    by rewrite Z2Nat.id by lia.
  - apply Z.eqb_neq in Er.
    replace (Z.to_nat (n `div` c + 1)) with (S (Z.to_nat (n `div` c))) by lia.
    rewrite seq_S, fmap_app. unfold sizes in *. rewrite fmap_app.
    rewrite sizes_full_chunks by done. rewrite Z2Nat.id by lia.
    f_equal. simpl. rewrite length_chunk_at. f_equal. nia.
Qed.

(** C7, as stated, fails: at 500 Hz a chunk of 1 ms has no sample and
    no list is returned; with a negative chunk size the list returned
    is empty, so the samples of the frame are in no chunk. *)
Lemma split_audio_chunks_without_chunks :
  chunk_size 500 1 = 0
  /\ split_audio_chunks [7; 8; 9] 500 1 = None
  /\ chunk_size 16000 (-5000) = -80000
  /\ split_audio_chunks [7; 8; 9] 16000 (-5000) = Some [].
Proof. repeat split; reflexivity. Qed.

(** C7, amended: when the chunk size is at least one sample, a list
    is returned and its chunks are consecutive, non-empty pieces of the
    frame, in order; [n / chunk_size] of them
    have exactly [chunk_size] samples and one more, with the remaining
    [n mod chunk_size] samples, follows when that is not zero. A buffer
    of 185000 samples at 16000 Hz and 5000 ms gives chunks of 80000,
    80000 and 25000 samples. *)
Theorem split_audio_chunks_sizes :
  (forall (audio_data : frame) (sample_rate d : Z),
      0 < chunk_size sample_rate d ->
      let c := chunk_size sample_rate d in
      let n := Z.of_nat (length audio_data) in
      exists chunks,
        split_audio_chunks audio_data sample_rate d = Some chunks
        /\ concat chunks = audio_data
        /\ Forall (fun chunk => chunk <> []) chunks
        /\ sizes chunks
           = replicate (Z.to_nat (n `div` c)) c
             ++ (if n `mod` c =? 0 then [] else [n `mod` c]))
  /\ chunk_size 16000 5000 = 80000
  /\ forall audio_data : frame,
      Z.of_nat (length audio_data) = 185000 ->
      exists chunks,
        split_audio_chunks audio_data 16000 5000 = Some chunks
        /\ sizes chunks = [80000; 80000; 25000].
Proof.
  assert (forall (audio_data : frame) (sample_rate d : Z),
      0 < chunk_size sample_rate d ->
      let c := chunk_size sample_rate d in
      let n := Z.of_nat (length audio_data) in
      exists chunks,
        split_audio_chunks audio_data sample_rate d = Some chunks
        /\ concat chunks = audio_data
        /\ Forall (fun chunk => chunk <> []) chunks
        /\ sizes chunks
           = replicate (Z.to_nat (n `div` c)) c
             ++ (if n `mod` c =? 0 then [] else [n `mod` c])) as Hgen.
  { intros a sr d Hc c n. eexists. split; [by apply split_audio_chunks_eq|].
    pose proof (split_then_concatenate_equation a sr d Hc) as Hrt.
    pose proof (sizes_chunks a sr d Hc) as Hs. simpl in Hs. fold c n in Hs.
    split; [exact Hrt|]. split; [|exact Hs].
    apply Forall_forall. intros chunk Hin Hnil. subst chunk.
    assert (0 ∈ sizes (chunk_at a (Z.to_nat (chunk_size sr d)) <$>
                 seq 0 (Z.to_nat (range_len 0 (Z.of_nat (length a)) (chunk_size sr d)))))
      as H0.
    { unfold sizes. apply list_elem_of_fmap. by exists []. }
    fold c n in H0. rewrite Hs in H0.
    pose proof (Z.mod_pos_bound n c Hc).
    apply elem_of_app in H0 as [H0|H0].
    - apply elem_of_replicate in H0. lia.
    - destruct (n `mod` c =? 0) eqn:Er; [by apply elem_of_nil in H0|].
      apply Z.eqb_neq in Er. apply list_elem_of_singleton in H0. lia. }
  split; [exact Hgen|]. split; [reflexivity|].
  intros a Hlen. destruct (Hgen a 16000 5000 eq_refl) as (chunks & Hs & _ & _ & Hsz).
  exists chunks. split; [exact Hs|]. rewrite Hsz, Hlen. reflexivity.
Qed.

Lemma split_audio_chunks_sizes_witness :
  exists chunks,
    split_audio_chunks [1; -2; 3; -4; 5] 1000 2 = Some chunks
    /\ concat chunks = [1; -2; 3; -4; 5]
    /\ Forall (fun chunk => chunk <> []) chunks
    /\ sizes chunks = [2; 2; 1].
Proof.
  apply (proj1 split_audio_chunks_sizes [1; -2; 3; -4; 5] 1000 2). reflexivity.
Defined.

(** *** Gain *)

Lemma wrap16_in_range z : in_int16 (wrap16 z).
Proof.
  unfold in_int16, wrap16.
  pose proof (Z.mod_pos_bound (z + 32768) 65536 ltac:(lia)). lia.
Qed.

Lemma wrap16_id z : in_int16 z -> wrap16 z = z.
Proof.
  unfold in_int16, wrap16. intros H. rewrite Z.mod_small by lia. lia.
Qed.

Lemma saturate16_in_range z : in_int16 (saturate16 z).
Proof. unfold in_int16, saturate16. lia. Qed.

(** Truncation against an integer bound. *)
Lemma truncate_bounds (q : Q) (b : Z) :
  ((inject_Z b <= q)%Q -> 0 <= b -> b <= truncate q)
  /\ ((q <= inject_Z b)%Q -> b <= 0 -> truncate q <= b)
  /\ ((q <= inject_Z b)%Q -> truncate q <= Z.max 0 b)
  /\ ((inject_Z b <= q)%Q -> Z.min 0 b <= truncate q).
Proof.
  destruct q as [num den]. unfold truncate, Qle. simpl.
  pose proof (Z.quot_rem' num (Z.pos den)) as Hqr.
  assert (0 <= num -> 0 <= Z.rem num (Z.pos den) < Z.pos den) as Hpos.
  { intros. apply Z.rem_bound_pos; lia. }
  assert (num <= 0 -> - Z.pos den < Z.rem num (Z.pos den) <= 0) as Hneg.
  { intros. pose proof (Z.rem_bound_pos_neg num (Z.pos den)).
    destruct (decide (num = 0)) as [->|]; [rewrite Z.rem_0_l; lia|]. lia. }
  set (t := num `quot` Z.pos den) in *. set (r := Z.rem num (Z.pos den)) in *.
  assert (0 < Z.pos den) as Hden by lia. set (dn := Z.pos den) in *.
  clearbody t r dn.
  assert (forall x y, dn * x < dn * y -> x < y) as Hc.
  { intros x y. apply Z.mul_lt_mono_pos_l. exact Hden. }
  destruct (decide (0 <= num)) as [Hn|Hn];
    [specialize (Hpos Hn); clear Hneg | specialize (Hneg ltac:(lia)); clear Hpos];
    repeat split; intros.
  all: try (apply Z.lt_succ_r, Hc; nia).
  all: try (apply Z.lt_pred_le, Hc; nia).
  all: try nia.
Qed.

Lemma truncate_clip (q : Q) :
  truncate (Qmin (Qmax q (-32768 # 1)) (32767 # 1)) = saturate16 (truncate q).
Proof.
  unfold Qmin, Qmax, GenericMinMax.gmin, GenericMinMax.gmax, saturate16.
  pose proof (truncate_bounds q (-32768)) as (_ & Hlo1 & _ & Hlo2).
  pose proof (truncate_bounds q 32767) as (Hhi1 & _ & Hhi2 & _).
  change (inject_Z (-32768)) with (-32768 # 1) in *.
  change (inject_Z 32767) with (32767 # 1) in *.
  destruct (Qcompare_spec q (-32768 # 1)) as [He|Hl|Hg].
  - destruct (Qcompare_spec q (32767 # 1)) as [He'|Hl'|Hg'].
    + rewrite He in He'. discriminate He'.
    + specialize (Hlo1 ltac:(rewrite He; apply Qle_refl) ltac:(lia)).
      specialize (Hlo2 ltac:(rewrite He; apply Qle_refl)). lia.
    + rewrite He in Hg'. discriminate Hg'.
  - destruct (Qcompare_spec (-32768 # 1) (32767 # 1)) as [He'|Hl'|Hg'];
      [discriminate He' | | discriminate Hg'].
    specialize (Hlo1 (Qlt_le_weak _ _ Hl) ltac:(lia)).
    change (truncate (-32768 # 1)) with (-32768). lia.
  - destruct (Qcompare_spec q (32767 # 1)) as [He'|Hl'|Hg'].
    + specialize (Hhi1 ltac:(rewrite He'; apply Qle_refl) ltac:(lia)).
      specialize (Hhi2 ltac:(rewrite He'; apply Qle_refl)).
      specialize (Hlo2 (Qlt_le_weak _ _ Hg)). lia.
    + specialize (Hhi2 (Qlt_le_weak _ _ Hl')).
      specialize (Hlo2 (Qlt_le_weak _ _ Hg)). lia.
    + specialize (Hhi1 (Qlt_le_weak _ _ Hg') ltac:(lia)).
      change (truncate (32767 # 1)) with 32767. lia.
Qed.

Section Gain.
Variable fround : Q -> float.
Variable invalid_cast : float -> Z.

Lemma scale_sample_in_range gain s :
  in_int16 (scale_sample fround invalid_cast gain s).
Proof.
  unfold scale_sample, astype_int16. case_match; apply wrap16_in_range.
Qed.

Lemma scale_sample_saturates gain s p :
  fmul fround (astype_float32 s) gain = Fin p ->
  scale_sample fround invalid_cast gain s = saturate16 (truncate p).
Proof.
  intros H. unfold scale_sample. rewrite H. simpl.
  rewrite truncate_clip. apply wrap16_id, saturate16_in_range.
Qed.

Lemma scale_sample_infinite gain s negative :
  fmul fround (astype_float32 s) gain = Infinity negative ->
  scale_sample fround invalid_cast gain s = if negative then -32768 else 32767.
Proof. intros H. unfold scale_sample. rewrite H. by destruct negative. Qed.

Lemma scaled_frame_in_range gain (audio_data : frame) :
  Forall in_int16 (scale_sample fround invalid_cast gain <$> audio_data).
Proof.
  apply Forall_fmap, Forall_forall. intros s _. apply scale_sample_in_range.
Qed.
End Gain.

(** C8: on a frame of 16-bit samples, every sample [normalize_audio]
    and [apply_gain] return is a 16-bit value, whatever the rounding of
    the floating-point operations; a sample whose scaled value is a
    number comes out as that number truncated and saturated at -32768
    and 32767, and an infinite one as the bound of its sign: the
    conversion to 16 bits never wraps. *)
Theorem gain_output_clipped
    (fround : Q -> float) (invalid_cast : float -> Z)
    (gain_linear : float -> option float) (rms_of : frame -> float)
    (normalize_gain : float -> float -> option float)
    (audio_data : frame) (target_db gain_db : float) :
  Forall in_int16 audio_data ->
  Forall in_int16
    (normalize_audio fround invalid_cast rms_of normalize_gain audio_data target_db)
  /\ Forall in_int16 (apply_gain fround invalid_cast gain_linear audio_data gain_db)
  /\ (forall gain,
        gain_linear gain_db = Some gain ->
        apply_gain fround invalid_cast gain_linear audio_data gain_db
        = scale_sample fround invalid_cast gain <$> audio_data)
  /\ (forall gain,
        is_zero (rms_of audio_data) = false ->
        normalize_gain (rms_of audio_data) target_db = Some gain ->
        normalize_audio fround invalid_cast rms_of normalize_gain audio_data target_db
        = scale_sample fround invalid_cast gain <$> audio_data)
  /\ (forall gain s,
        match fmul fround (astype_float32 s) gain with
        | Fin p => scale_sample fround invalid_cast gain s = saturate16 (truncate p)
        | Infinity negative =>
            scale_sample fround invalid_cast gain s
            = if negative then -32768 else 32767
        | NaN => True
        end).
Proof.
  intros Hin. repeat split.
  - unfold normalize_audio. repeat case_match; try done; apply scaled_frame_in_range.
  - unfold apply_gain. case_match; [apply scaled_frame_in_range | done].
  - intros gain Hg. unfold apply_gain. by rewrite Hg.
  - intros gain Hz Hg. unfold normalize_audio. by rewrite Hz, Hg.
  - intros gain s.
    destruct (fmul fround (astype_float32 s) gain) as [|negative|p] eqn:E; [done | |].
    + by apply scale_sample_infinite.
    + by apply scale_sample_saturates.
Qed.

Lemma gain_output_clipped_witness :
  apply_gain exact_round zero_cast double_gain [20000; -20000; 5] (Fin 6)
  = [32767; -32768; 10].
Proof.
  pose proof (gain_output_clipped exact_round zero_cast double_gain
                (fun _ => Fin 1) (fun _ _ => None) [20000; -20000; 5] (Fin 0) (Fin 6))
    as H.
  destruct H as (_ & _ & H & _).
  - repeat constructor; unfold in_int16; lia.
  - rewrite (H (Fin 2) eq_refl). reflexivity.
Defined.

End ProcessorFacts.

(** ** Speech synthesis route *)

Module VoiceFacts.
Import Voice.

Lemma select_voice_unknown e v :
  v <> "" -> v <> "default" ->
  Forall (fun x => lower (entry_name x) <> lower v) (list_voices e) ->
  select_voice e (Some v) = (e, [warning_voice_not_found v]).
Proof.
  intros Hne Hnd Hall. unfold select_voice.
  rewrite !bool_decide_eq_false_2 by done. simpl.
  destruct (list_find _ _) as [[i x]|] eqn:E; [|done].
  apply list_find_Some in E as (Hi & Hm & _).
  rewrite Forall_forall in Hall. exfalso.
  apply (Hall x); [by eapply list_elem_of_lookup_2|].
  unfold voice_matches in Hm. by apply bool_decide_eq_true in Hm.
Qed.

Lemma select_voice_default e : select_voice e (Some "default") = (e, []).
Proof. reflexivity. Qed.

Example select_voice_ignores_case :
  select_voice demo_engine (Some "dAvId")
  = (mkEngine true (available_voices demo_engine) "voice/0" 200, [info_voice_set "David"]).
Proof. reflexivity. Qed.

(** The engine the settings give: the configured voice when the driver
    has a voice at that index, else the voice the driver starts on. *)
Lemma initialize_engine_voice tts_settings voices driver_voice i v :
  pyttsx3_voice_index tts_settings = Z.of_nat i ->
  voices !! i = Some v ->
  (_initialize_engine tts_settings voices driver_voice).1
  = mkEngine true voices (id v) (pyttsx3_rate tts_settings).
Proof.
  intros Hi Hv. unfold _initialize_engine, py_index. rewrite Hi.
  apply lookup_lt_Some in Hv as Hlt.
  assert ((Z.of_nat i <? Z.of_nat (length voices)) = true) as -> by (apply Z.ltb_lt; lia).
  assert ((0 <=? Z.of_nat i) = true) as -> by (apply Z.leb_le; lia).
  by rewrite Nat2Z.id, Hv.
Qed.

Section Route.
Context {wav : Type}.
Variable fround : Q -> Processor.float.
Variable created : Quota.datetime.
Variable save_to_file : Pyttsx3Engine -> string -> option wav.
Variable read_audio_file : wav -> option (list Z * Z).
Variable b64encode : list Z -> string.

Local Abbreviation speak :=
  (speak_text wav fround created save_to_file read_audio_file b64encode).

(** The route on a request that names an unknown voice and on the
    same request for the voice [default]: same outcome, same engine,
    and one more record in the log. The voice of the engine is the one
    it had, whichever request set it. *)
Lemma speak_text_unknown_voice w request v :
  req_voice request = Some v ->
  v <> "" -> v <> "default" ->
  Forall (fun x => lower (entry_name x) <> lower v) (list_voices (engine w)) ->
  let r := speak w request in
  let r' := speak w (mkRequest (text request) (Some "default") (speed request)) in
  succeeded r.1 = succeeded r'.1
  /\ engine r.2 = engine r'.2
  /\ voice_property (engine r.2) = voice_property (engine w)
  /\ (text_rejected (text request) = false ->
      is_initialized (engine w) = true ->
      warning_voice_not_found v ∈ log r.2).
Proof.
  intros Hv Hne Hnd Hall. unfold speak_text, text_rejected. simpl.
  destruct (bool_decide (text request = "") || _) eqn:E1; [by simpl|].
  destruct (5000 <? _)%nat eqn:E2; [by simpl|]. simpl.
  destruct (is_initialized (engine w)) eqn:Ei; [|by simpl]. simpl.
  rewrite Hv, (select_voice_unknown _ _ Hne Hnd Hall).
  destruct (py_int _) as [rate|]; simpl;
    [|repeat split; auto; intros; set_solver].
  unfold speak_to_file. simpl. rewrite Ei. simpl.
  destruct (save_to_file _ _) as [f|]; simpl;
    [|repeat split; auto; intros; set_solver].
  destruct (read_audio_file f) as [[samples sr]|]; simpl;
    [|repeat split; auto; intros; set_solver].
  destruct (sr =? 0); simpl; repeat split; auto; intros; set_solver.
Qed.

(** An unknown voice does not make the request fail: when the rate is
    a number, the driver writes the file and the file is read back,
    the request is answered. *)
Lemma speak_text_unknown_voice_answered w request v rate f samples sample_rate :
  req_voice request = Some v ->
  v <> "" -> v <> "default" ->
  Forall (fun x => lower (entry_name x) <> lower v) (list_voices (engine w)) ->
  text_rejected (text request) = false ->
  is_initialized (engine w) = true ->
  py_int (Processor.fmul fround (Processor.Fin 150) (speed request)) = Some rate ->
  save_to_file (set_rate (engine w) rate).1 (text request) = Some f ->
  read_audio_file f = Some (samples, sample_rate) ->
  sample_rate <> 0 ->
  (speak w request).1
  = Ok (mkResponse (b64encode samples)
          (inject_Z (Z.of_nat (length samples)) / inject_Z sample_rate) v).
Proof.
  intros Hv Hne Hnd Hall Ht Hi Hrate Hsave Hr Hsr.
  unfold speak_text, text_rejected in *.
  apply orb_false_iff in Ht as [Ht1 Ht2]. rewrite Ht1, Ht2.
  cbn [negb orb fst snd Quota.get_best_tts_backend]. rewrite Hi. cbn [negb].
  rewrite Hv, (select_voice_unknown _ _ Hne Hnd Hall), Hrate.
  unfold speak_to_file. cbn [set_rate is_initialized fst snd negb] in *.
  rewrite Hi in Hsave |- *. cbn [negb]. rewrite Hsave, Hr.
  apply Z.eqb_neq in Hsr. by rewrite Hsr.
Qed.
End Route.


End VoiceFacts.

(** ** Quota manager: further properties *)

Module ManagerFacts.
Import Quota Manager.

Lemma timedelta_days_same now : timedelta_days now now = 0.
Proof. unfold timedelta_days. by rewrite Z.sub_diag. Qed.

Lemma check_quota_cases db service now :
  (db !! service = None /\ check_quota db service now = ((true, 999999), db))
  \/ (exists tracker, db !! service = Some tracker /\ new_day now tracker = true
        /\ check_quota db service now
           = ((0 <? daily_limit tracker, Z.max 0 (daily_limit tracker - 0)),
              <[service := reset_tracker now tracker]> db))
  \/ (exists tracker, db !! service = Some tracker /\ new_day now tracker = false
        /\ check_quota db service now
           = ((daily_calls tracker <? daily_limit tracker,
               Z.max 0 (daily_limit tracker - daily_calls tracker)), db)).
Proof.
  unfold check_quota. destruct (db !! service) as [t|]; [|by left].
  right. destruct (new_day now t) eqn:E; [left | right]; by exists t.
Qed.

(** X1: the two components of the answer of [check_quota] agree: the
    number of remaining calls is never negative, and the quota is
    reported available exactly when some call remains. *)
Theorem check_quota_answer_coherent db service now :
  0 <= (check_quota db service now).1.2
  /\ ((check_quota db service now).1.1 = true <-> 0 < (check_quota db service now).1.2).
Proof.
  destruct (check_quota_cases db service now)
    as [[_ ->]|[(t & _ & _ & ->)|(t & _ & _ & ->)]]; simpl.
  - split; [lia | split; [lia | done]].
  - rewrite Z.ltb_lt. lia.
  - rewrite Z.ltb_lt. lia.
Qed.

Lemma check_quota_other db service other now :
  service <> other -> (check_quota db service now).2 !! other = db !! other.
Proof.
  intros Hne. destruct (check_quota_cases db service now)
    as [[_ ->]|[(t & _ & _ & ->)|(t & _ & _ & ->)]]; simpl; [done | | done].
  by rewrite lookup_insert_ne.
Qed.

(** X2: [check_quota] and [track_usage] work on the row of their
    service only: every other row is as before, and no row is created
    or deleted. *)
Theorem quota_operations_frame db service other units now :
  service <> other ->
  (check_quota db service now).2 !! other = db !! other
  /\ track_usage db service units now !! other = db !! other
  /\ dom (check_quota db service now).2 = dom db
  /\ dom (track_usage db service units now) = dom db.
Proof.
  intros Hne. repeat split.
  - by apply check_quota_other.
  - unfold track_usage. destruct (db !! service); [|done].
    by rewrite lookup_insert_ne.
  - destruct (check_quota_cases db service now)
      as [[_ ->]|[(t & Hl & _ & ->)|(t & _ & _ & ->)]]; simpl; [done | | done].
    rewrite dom_insert_L. apply elem_of_dom_2 in Hl. set_solver.
  - unfold track_usage. destruct (db !! service) as [t|] eqn:Hl; [|done].
    rewrite dom_insert_L. apply elem_of_dom_2 in Hl. set_solver.
Qed.

Lemma quota_operations_frame_witness :
  (check_quota exhausted_db "huggingface" day2_23h).2 !! "vosk" = exhausted_db !! "vosk"
  /\ track_usage exhausted_db "huggingface" 1 day2_23h !! "vosk" = exhausted_db !! "vosk"
  /\ dom (check_quota exhausted_db "huggingface" day2_23h).2 = dom exhausted_db
  /\ dom (track_usage exhausted_db "huggingface" 1 day2_23h) = dom exhausted_db.
Proof.
  apply (quota_operations_frame exhausted_db "huggingface" "vosk" 1 day2_23h).
  discriminate.
Defined.

(** X3: a second [check_quota] at the same moment gives the same
    answer and leaves the table as the first one left it. *)
Theorem check_quota_idempotent db service now :
  check_quota (check_quota db service now).2 service now
  = check_quota db service now.
Proof.
  destruct (check_quota_cases db service now)
    as [[Hl E]|[(t & Hl & Hn & E)|(t & Hl & Hn & E)]]; rewrite E; simpl.
  - by rewrite E.
  - unfold check_quota at 1. rewrite lookup_insert_eq.
    assert (new_day now (reset_tracker now t) = false) as ->.
    { unfold new_day. simpl. by rewrite timedelta_days_same. }
    done.
  - by rewrite E.
Qed.

(** X4: usage accumulates: tracking [a] units and then [b] units
    leaves the table that tracking [a + b] units at the later moment
    leaves. *)
Theorem track_usage_accumulates db service a b now later :
  track_usage (track_usage db service a now) service b later
  = track_usage db service (a + b) later.
Proof.
  unfold track_usage at 2 3. destruct (db !! service) as [t|] eqn:Hl.
  - unfold track_usage. rewrite lookup_insert_eq, insert_insert_eq.
    f_equal. unfold track_tracker. simpl. by rewrite Z.add_assoc.
  - unfold track_usage. by rewrite Hl.
Qed.

(** X5: when no day has passed since the last reset, tracking
    [units >= 0] takes that many calls off the remaining ones, down to
    zero. *)
Theorem track_usage_consumes_remaining db service tracker units now later :
  db !! service = Some tracker ->
  0 <= units ->
  new_day later tracker = false ->
  (check_quota (track_usage db service units now) service later).1.2
  = Z.max 0 ((check_quota db service later).1.2 - units).
Proof.
  intros Hl Hu Hn.
  rewrite (QuotaFacts.check_quota_same_day _ _ _ _ Hl Hn).
  rewrite (QuotaFacts.check_quota_same_day _ _ _ (track_tracker units now tracker)).
  - simpl. lia.
  - unfold track_usage. rewrite Hl. apply lookup_insert_eq.
  - exact Hn.
Qed.

Lemma track_usage_consumes_remaining_witness :
  (check_quota (track_usage small_db "demo" 2 day0_23h) "demo" day1_01h).1.2
  = Z.max 0 ((check_quota small_db "demo" day1_01h).1.2 - 2).
Proof.
  apply (track_usage_consumes_remaining small_db "demo"
           (mkTracker "demo" 0 3 day0_23h false None) 2 day0_23h day1_01h);
    [reflexivity | lia | reflexivity].
Defined.

(** X6: once 24 hours have passed since the last reset, [check_quota]
    on a counter with a positive limit answers that the whole limit is
    available, whatever the usage was, and a new period starts at the
    moment of the check: the stored counter has no calls and that
    moment as its last reset (limit and flag as they were, the update
    stamped by the database), and what is used afterwards is what a
    check subtracts from the limit until 24 hours after that moment. *)
Theorem check_quota_rollover_restores db service tracker now units t later :
  db !! service = Some tracker ->
  last_reset_date tracker + us_per_day <= now ->
  0 < daily_limit tracker ->
  later < now + us_per_day ->
  (check_quota db service now).1 = (true, daily_limit tracker)
  /\ (check_quota db service now).2 !! service
     = Some (mkTracker (service_name tracker) 0 (daily_limit tracker) now
               (is_quota_exceeded tracker) (Some stamped_by_database))
  /\ (check_quota (track_usage (check_quota db service now).2 service units t)
        service later).1
     = (units <? daily_limit tracker, Z.max 0 (daily_limit tracker - units)).
Proof.
  intros Hl Hn Hpos Hlater. apply QuotaFacts.new_day_true in Hn.
  rewrite (QuotaFacts.check_quota_rollover _ _ _ _ Hl Hn). simpl.
  split; [|split].
  - f_equal; [by apply Z.ltb_lt | lia].
  - by rewrite lookup_insert_eq.
  - unfold track_usage. rewrite lookup_insert_eq.
    erewrite QuotaFacts.check_quota_same_day;
      [| apply lookup_insert_eq | by apply QuotaFacts.new_day_false].
    done.
Qed.

Lemma check_quota_rollover_restores_witness :
  (check_quota exhausted_db "huggingface" day2_23h).1 = (true, 1000)
  /\ (check_quota exhausted_db "huggingface" day2_23h).2 !! "huggingface"
     = Some (mkTracker "huggingface" 0 1000 day2_23h true (Some stamped_by_database))
  /\ (check_quota
        (track_usage (check_quota exhausted_db "huggingface" day2_23h).2
           "huggingface" 400 day2_23h)
        "huggingface" (day2_23h + hour)).1
     = (true, 600).
Proof.
  apply (check_quota_rollover_restores exhausted_db "huggingface"
           (mkTracker "huggingface" 1000 1000 day0_23h true (Some (assigned day0_23h)))
           day2_23h 400 day2_23h (day2_23h + hour));
    [by vm_compute | by vm_compute | reflexivity | by vm_compute].
Defined.

(** One step of the loop of [_initialize_quota_trackers]. *)
Lemma initialize_present db now :
  is_Some (db !! "huggingface") -> is_Some (db !! "azure_tts") ->
  is_Some (db !! "vosk") -> is_Some (db !! "ollama") ->
  _initialize_quota_trackers db now = db.
Proof.
  intros [? H1] [? H2] [? H3] [? H4].
  unfold _initialize_quota_trackers, DEFAULT_QUOTAS. simpl.
  by rewrite H1, H2, H3, H4.
Qed.

Lemma initialize_all_present db now service limit :
  (service, limit) ∈ DEFAULT_QUOTAS ->
  is_Some (_initialize_quota_trackers db now !! service).
Proof.
  intros Hin. destruct (db !! service) as [t|] eqn:E.
  - exists t. by apply QuotaFacts.initialize_keeps.
  - eexists. by apply QuotaFacts.initialize_creates.
Qed.

Lemma initialize_other db now service :
  (forall limit, (service, limit) ∉ DEFAULT_QUOTAS) ->
  _initialize_quota_trackers db now !! service = db !! service.
Proof.
  intros Hout. unfold _initialize_quota_trackers, DEFAULT_QUOTAS in *. simpl.
  assert (service <> "huggingface")
    by (intros ->; apply (Hout (Finite 1000)); repeat constructor).
  assert (service <> "azure_tts")
    by (intros ->; apply (Hout (Finite 5000000)); repeat constructor).
  assert (service <> "vosk") by (intros ->; apply (Hout Inf); repeat constructor).
  assert (service <> "ollama") by (intros ->; apply (Hout Inf); repeat constructor).
  repeat case_match; simplify_map_eq; done.
Qed.

(** X7: the initialisation of the manager is idempotent and keeps
    what it finds: a second run changes nothing (so a restart does not
    reset any counter), a row that exists is kept as it is, and a
    service that is not configured gets no row. *)
Theorem initialize_idempotent db now later :
  _initialize_quota_trackers (_initialize_quota_trackers db now) later
  = _initialize_quota_trackers db now
  /\ (forall service tracker,
        db !! service = Some tracker ->
        _initialize_quota_trackers db now !! service = Some tracker)
  /\ (forall service,
        (forall limit, (service, limit) ∉ DEFAULT_QUOTAS) ->
        _initialize_quota_trackers db now !! service = db !! service).
Proof.
  split; [|split].
  - apply initialize_present.
    + apply (initialize_all_present db now _ (Finite 1000)). repeat constructor.
    + apply (initialize_all_present db now _ (Finite 5000000)). repeat constructor.
    + apply (initialize_all_present db now _ Inf). repeat constructor.
    + apply (initialize_all_present db now _ Inf). repeat constructor.
  - intros service tracker. apply QuotaFacts.initialize_keeps.
  - intros service. apply initialize_other.
Qed.

Lemma initialize_idempotent_witness :
  _initialize_quota_trackers small_db day0_23h !! "demo"
  = Some (mkTracker "demo" 0 3 day0_23h false None).
Proof.
  apply (proj1 (proj2 (initialize_idempotent small_db day0_23h day1_01h))).
  reflexivity.
Defined.

Lemma limit_column_positive service limit :
  (service, limit) ∈ DEFAULT_QUOTAS -> 0 < limit_column limit.
Proof.
  unfold DEFAULT_QUOTAS. intros Hin.
  repeat (apply elem_of_cons in Hin as [[= -> ->]|Hin]); try done.
  by apply elem_of_nil in Hin.
Qed.

(** X8: on a table that has no row for a configured service, the
    manager creates one, and from then on, at any moment, [check_quota]
    reports the service available with its whole configured limit
    (999999 for an unlimited service), the flag of the row being
    consistent. *)
Theorem initialized_service_available db0 service limit now later :
  (service, limit) ∈ DEFAULT_QUOTAS ->
  db0 !! service = None ->
  (check_quota (db (init db0 now)) service later).1 = (true, limit_column limit)
  /\ exists tracker,
       db (init db0 now) !! service = Some tracker /\ flag_consistent tracker.
Proof.
  intros Hin Hnone.
  pose proof (QuotaFacts.initialize_creates db0 now service limit Hin Hnone) as Hl.
  pose proof (limit_column_positive service limit Hin) as Hpos.
  split.
  - simpl. destruct (check_quota_cases (_initialize_quota_trackers db0 now) service later)
      as [[Hn _]|[(t & Ht & _ & ->)|(t & Ht & _ & ->)]].
    + congruence.
    + rewrite Hl in Ht. injection Ht as <-. simpl.
      f_equal; [by apply Z.ltb_lt | lia].
    + rewrite Hl in Ht. injection Ht as <-. simpl.
      f_equal; [by apply Z.ltb_lt | lia].
  - exists (new_tracker service limit now). split; [exact Hl|].
    by apply QuotaFacts.new_tracker_consistent.
Qed.

Lemma initialized_service_available_witness :
  (check_quota (db (init ∅ day0_23h)) "azure_tts" day2_23h).1 = (true, 5000000).
Proof.
  apply (initialized_service_available ∅ "azure_tts" (Finite 5000000)
           day0_23h day2_23h); [|reflexivity].
  repeat constructor.
Defined.

(** X9: [get_best_stt_backend] without [require_online] answers Vosk
    and does not touch the table; with it, it answers HuggingFace
    exactly when [check_quota] reports the quota available and Vosk
    otherwise. It never answers Sherpa-ONNX, records its answer as the
    current backend and leaves the two other current backends alone. *)
Theorem get_best_stt_backend_offline_first (m : QuotaManager)
    (require_online : bool) (now : datetime) :
  let r := get_best_stt_backend m require_online now in
  r.1 = (if require_online && (check_quota (db m) "huggingface" now).1.1
         then STT_HUGGINGFACE else STT_VOSK)
  /\ r.1 <> STT_SHERPA_ONNX
  /\ db r.2 = (if require_online then (check_quota (db m) "huggingface" now).2
               else db m)
  /\ stt (current_backends r.2) = r.1
  /\ ai (current_backends r.2) = ai (current_backends m)
  /\ tts (current_backends r.2) = tts (current_backends m).
Proof.
  unfold get_best_stt_backend. destruct require_online; simpl; [|done].
  destruct (check_quota (db m) "huggingface" now) as [[ok rem] db']. simpl.
  by destruct ok.
Qed.

Lemma get_best_ai_backend_selects (m : QuotaManager) (now : datetime) :
  ai (current_backends (get_best_ai_backend m now).2) = (get_best_ai_backend m now).1.
Proof.
  unfold get_best_ai_backend.
  destruct (check_quota (db m) "huggingface" now) as [[ok rem] db'].
  by destruct (ok && (0 <? rem)).
Qed.

(** X10: [should_switch_backend] answers [False] for every service
    type and every state: the selection it calls has already recorded
    its answer as the current backend when the two are compared. *)
Theorem should_switch_backend_never (m : QuotaManager) (service_type : string)
    (now : datetime) :
  (should_switch_backend m service_type now).1 = false.
Proof.
  unfold should_switch_backend. repeat case_bool_decide.
  - pose proof (get_best_ai_backend_selects m now) as Hsel.
    destruct (get_best_ai_backend m now) as [best m']. simpl in *.
    apply bool_decide_eq_false. intros Hne. by apply Hne.
  - done.
  - done.
  - done.
Qed.

Lemma check_quota_answer_local db1 db2 service now :
  db1 !! service = db2 !! service ->
  (check_quota db1 service now).1 = (check_quota db2 service now).1.
Proof.
  intros H. unfold check_quota. rewrite H.
  destruct (db2 !! service) as [t|]; [|done]. by destruct (new_day now t).
Qed.


Lemma status_step_eq now status m quota :
  status_step now (status, m) quota
  = (status ++
       [(quota.1,
         mkStatus (check_quota (db m) quota.1 (now quota.1)).1.1
                  (check_quota (db m) quota.1 (now quota.1)).1.2
                  (if contains "ai" quota.1
                   then Some (ai (current_backends m)) else None))],
     mkManager (check_quota (db m) quota.1 (now quota.1)).2 (current_backends m)).
Proof.
  destruct quota as [service limit]. unfold status_step. simpl.
  by destruct (check_quota (db m) service (now service)) as [[ok rem] db'].
Qed.

(** The entry of a service, from the table [tbl]. *)
Lemma status_fold now (backends : Quota.backends) quotas :
  forall status tbl,
    NoDup quotas.*1 ->
    (foldl (status_step now) (status, mkManager tbl backends) quotas).1
    = status ++
        ((fun quota : string * quota_limit =>
            (quota.1,
             mkStatus (check_quota tbl quota.1 (now quota.1)).1.1
                      (check_quota tbl quota.1 (now quota.1)).1.2
                      (if contains "ai" quota.1 then Some (ai backends) else None)))
           <$> quotas)
    /\ current_backends (foldl (status_step now) (status, mkManager tbl backends) quotas).2
       = backends.
Proof.
  induction quotas as [|quota quotas IH]; intros status tbl Hnd.
  - simpl. by rewrite app_nil_r.
  - rewrite fmap_cons in Hnd. apply NoDup_cons in Hnd as [Hnotin Hnd].
    cbn [foldl]. rewrite status_step_eq. cbn [db current_backends].
    destruct (IH (status ++
                    [(quota.1,
                      mkStatus (check_quota tbl quota.1 (now quota.1)).1.1
                               (check_quota tbl quota.1 (now quota.1)).1.2
                               (if contains "ai" quota.1
                                then Some (ai backends) else None))])
                 (check_quota tbl quota.1 (now quota.1)).2 Hnd) as [IH1 IH2].
    split; [|exact IH2].
    rewrite IH1, <- app_assoc, fmap_cons. simpl. do 2 f_equal.
    apply list_fmap_ext. intros i other Hi.
    assert (quota.1 <> other.1) as Hne.
    { intros Heq. apply Hnotin. rewrite Heq.
      apply list_elem_of_fmap. exists other. split; [done|].
      by eapply list_elem_of_lookup_2. }
    rewrite (check_quota_answer_local _ tbl other.1 (now other.1)); [done|].
    by apply check_quota_other.
Qed.

(** X11: [get_quota_status] lists the four configured services in
    their order, each with the answer [check_quota] gives for it on the
    table as it was before the call (the checks of the other services
    do not interfere), and with no current backend: no configured name
    contains [ai]. The current backends are left alone. *)
Theorem get_quota_status_entries (m : QuotaManager) (now : string -> datetime) :
  (get_quota_status m now).1
  = (fun service =>
       (service,
        mkStatus (check_quota (db m) service (now service)).1.1
                 (check_quota (db m) service (now service)).1.2 None))
      <$> ["huggingface"; "azure_tts"; "vosk"; "ollama"]
  /\ current_backends (get_quota_status m now).2 = current_backends m.
Proof.
  unfold get_quota_status. destruct m as [tbl backends].
  destruct (status_fold now backends DEFAULT_QUOTAS [] tbl) as [H1 H2].
  { unfold DEFAULT_QUOTAS. simpl. repeat (apply NoDup_cons; split; [set_solver|]).
    apply NoDup_nil_2. }
  split; [|exact H2]. rewrite H1. reflexivity.
Qed.

End ManagerFacts.

(** ** Hugging Face client *)

Module HuggingFaceFacts.
Import Quota HuggingFace.

(** *** Strings *)

Lemma append_nil_l s : String.append "" s = s.
Proof. reflexivity. Qed.

Lemma append_cons c s t : String.append (String c s) t = String c (String.append s t).
Proof. reflexivity. Qed.

Lemma string_app_nil_r s : String.append s "" = s.
Proof.
  induction s as [|c s IH]; [done|]. by rewrite append_cons, IH.
Qed.

Lemma string_app_assoc s1 s2 s3 :
  String.append (String.append s1 s2) s3 = String.append s1 (String.append s2 s3).
Proof.
  induction s1 as [|c s1 IH]; [done|]. by rewrite !append_cons, IH.
Qed.

Lemma rev_app_spec s1 : forall s2,
  String.rev_app s1 s2 = String.append (String.rev s1) s2.
Proof.
  unfold String.rev. induction s1 as [|c s1 IH]; intros s2; simpl; [done|].
  rewrite (IH (String c s2)), (IH (String c "")), string_app_assoc. done.
Qed.

Lemma rev_cons c s :
  String.rev (String c s) = String.append (String.rev s) (String c "").
Proof. unfold String.rev at 1. simpl. apply rev_app_spec. Qed.

Lemma rev_app_distr s1 s2 :
  String.rev (String.append s1 s2) = String.append (String.rev s2) (String.rev s1).
Proof.
  induction s1 as [|c s1 IH].
  - change (String.rev "") with "". by rewrite string_app_nil_r.
  - by rewrite append_cons, !rev_cons, IH, string_app_assoc.
Qed.

Lemma rev_involutive s : String.rev (String.rev s) = s.
Proof.
  induction s as [|c s IH]; [done|].
  by rewrite rev_cons, rev_app_distr, IH.
Qed.

Lemma lstrip_clean_start s : clean_start (Voice.lstrip s).
Proof.
  induction s as [|c s IH]; simpl; [done|].
  destruct (Voice.is_space c) eqn:E; [done | by simpl].
Qed.

Lemma lstrip_id s : clean_start s -> Voice.lstrip s = s.
Proof. destruct s as [|c s]; simpl; [done | by intros ->]. Qed.

(** [lstrip] keeps a suffix. *)
Lemma lstrip_suffix s : exists spaces, s = String.append spaces (Voice.lstrip s).
Proof.
  induction s as [|c s [sp IH]]; simpl; [by exists ""|].
  destruct (Voice.is_space c).
  - exists (String c sp). by rewrite append_cons, <- IH.
  - by exists "".
Qed.

Lemma clean_start_app s1 s2 :
  s1 <> "" -> clean_start s1 -> clean_start (String.append s1 s2).
Proof. by destruct s1. Qed.

Lemma strip_clean s :
  clean_start (Voice.strip s) /\ clean_end (Voice.strip s).
Proof.
  unfold Voice.strip, clean_end. rewrite rev_involutive.
  split; [|apply lstrip_clean_start].
  set (r := Voice.lstrip s).
  destruct (lstrip_suffix (String.rev r)) as [sp Hsp].
  set (t := Voice.lstrip (String.rev r)) in *.
  assert (r = String.append (String.rev t) (String.rev sp)) as Hr.
  { rewrite <- rev_app_distr, <- Hsp. by rewrite rev_involutive. }
  destruct (String.rev t) as [|c u] eqn:Et; [done|].
  pose proof (lstrip_clean_start s) as Hc. fold r in Hc. rewrite Hr in Hc.
  exact Hc.
Qed.

Lemma strip_idempotent s : Voice.strip (Voice.strip s) = Voice.strip s.
Proof.
  destruct (strip_clean s) as [H1 H2]. unfold clean_end in H2.
  unfold Voice.strip at 1.
  by rewrite (lstrip_id _ H1), (lstrip_id _ H2), rev_involutive.
Qed.

Lemma prefix_app p s : String.prefix p (String.append p s) = true.
Proof.
  induction p as [|c p IH].
  - by destruct s.
  - rewrite append_cons. simpl. destruct (Ascii.ascii_dec c c); [exact IH | done].
Qed.

Lemma string_drop_app p s : string_drop (String.length p) (String.append p s) = s.
Proof.
  induction p as [|c p IH]; [done|]. rewrite append_cons. simpl. exact IH.
Qed.

(** *** Prompt and reply *)

Lemma last_five_short {A} (l : list A) : (length l <= 5)%nat -> last_five l = l.
Proof.
  intros H. unfold last_five. replace (length l - 5)%nat with 0%nat by lia. done.
Qed.

Lemma last_five_app {A} (old recent : list A) :
  length recent = 5%nat -> last_five (old ++ recent) = recent.
Proof.
  intros H. unfold last_five. rewrite length_app, H.
  replace (length old + 5 - 5)%nat with (length old) by lia.
  by rewrite drop_app_length.
Qed.

(** The loop of [_prepare_prompt] only ever puts text in front. *)
Lemma prompt_loop_suffix (ctx : list message) : forall msg,
  exists history,
    foldl (fun prompt m =>
             if bool_decide (role m = Some "user")
             then String.append "User: "
                    (String.append (default "" (content m))
                       (String.append (String (Ascii.ascii_of_nat 10) "") prompt))
             else prompt) msg ctx
    = String.append history msg.
Proof.
  induction ctx as [|m ctx IH]; intros msg; simpl.
  - by exists "".
  - case_bool_decide.
    + destruct (IH (String.append "User: "
                      (String.append (default "" (content m))
                         (String.append (String (Ascii.ascii_of_nat 10) "") msg))))
        as [h Hh].
      exists (String.append h
                (String.append "User: "
                   (String.append (default "" (content m))
                      (String (Ascii.ascii_of_nat 10) "")))).
      rewrite Hh. by rewrite !string_app_assoc.
    + apply IH.
Qed.

(** X12: [_prepare_prompt] returns the message itself when there is
    no history (none or an empty list); with a history it only puts
    text in front of the message, and only the last five entries of the
    history count. *)
Theorem prepare_prompt_keeps_message (msg : string) :
  _prepare_prompt msg None = msg
  /\ _prepare_prompt msg (Some []) = msg
  /\ (forall ctx, exists history,
        _prepare_prompt msg ctx = String.append history msg)
  /\ (forall old recent : list message,
        length recent = 5%nat ->
        _prepare_prompt msg (Some (old ++ recent)) = _prepare_prompt msg (Some recent)).
Proof.
  repeat split.
  - intros [[|m ctx]|]; simpl; try by exists "".
    apply (prompt_loop_suffix (last_five (m :: ctx))).
  - intros old recent H. unfold _prepare_prompt.
    rewrite (last_five_app old recent H), (last_five_short recent) by lia.
    destruct recent as [|m recent]; [done|].
    by destruct (old ++ m :: recent) eqn:E; [destruct old; discriminate|].
Qed.

Lemma prepare_prompt_keeps_message_witness :
  _prepare_prompt "Hi"
    (Some [mkMessage (Some "user") (Some "old");
           mkMessage (Some "user") (Some "a"); mkMessage (Some "assistant") (Some "b");
           mkMessage (Some "user") (Some "c"); mkMessage (Some "system") None;
           mkMessage None (Some "d")])
  = _prepare_prompt "Hi"
      (Some [mkMessage (Some "user") (Some "a"); mkMessage (Some "assistant") (Some "b");
             mkMessage (Some "user") (Some "c"); mkMessage (Some "system") None;
             mkMessage None (Some "d")]).
Proof.
  apply (proj2 (proj2 (proj2 (prepare_prompt_keeps_message "Hi")))
           [mkMessage (Some "user") (Some "old")]).
  reflexivity.
Defined.

(** X13: [_extract_response] on a text that begins with the prompt
    returns what follows it, stripped; in every case what it returns
    neither begins nor ends with white space, and stripping it again
    changes nothing. A text that is the prompt alone gives the empty
    string. *)
Theorem extract_response_stripped (generated_text prompt reply : string) :
  _extract_response (String.append prompt reply) prompt = Voice.strip reply
  /\ _extract_response prompt prompt = ""
  /\ clean_start (_extract_response generated_text prompt)
  /\ clean_end (_extract_response generated_text prompt)
  /\ Voice.strip (_extract_response generated_text prompt)
     = _extract_response generated_text prompt.
Proof.
  split; [|split].
  - unfold _extract_response. by rewrite prefix_app, string_drop_app.
  - unfold _extract_response.
    pose proof (prefix_app prompt "") as Hp. rewrite string_app_nil_r in Hp.
    pose proof (string_drop_app prompt "") as Hd. rewrite string_app_nil_r in Hd.
    by rewrite Hp, Hd.
  - unfold _extract_response.
    destruct (String.prefix prompt generated_text);
      (split; [apply strip_clean | split; [apply strip_clean | apply strip_idempotent]]).
Qed.

(** *** Quota *)

Lemma client_check_quota_cases db service now created :
  match db !! service with
  | None =>
      _check_quota db service now created
      = (true, <[service := mkTracker service 0 1000 created false None]> db)
  | Some tracker =>
      (_check_quota db service now created).2 = db
      /\ (_check_quota db service now created).1 = (check_quota db service now).1.1
  end.
Proof.
  unfold _check_quota, check_quota. destruct (db !! service) as [t|] eqn:E.
  - split; [done|]. unfold new_day. simpl.
    assert ((0 <? timedelta_days now (last_reset_date t))
            = (1 <=? timedelta_days now (last_reset_date t))) as ->.
    { destruct (Z.ltb_spec 0 (timedelta_days now (last_reset_date t))),
        (Z.leb_spec 1 (timedelta_days now (last_reset_date t))); lia. }
    by destruct (1 <=? timedelta_days now (last_reset_date t)).
  - simpl. by destruct (0 <? timedelta_days now created).
Qed.

(** X14: the client's [_check_quota] creates the missing counter,
    with no usage, a limit of 1000 and the time of the database as its
    last reset, and answers [True] whatever the two clocks read; a
    counter that exists is never written, not even on a new day, and
    the answer is then the availability the manager's [check_quota]
    reports. *)
Theorem client_check_quota_creates db service now created :
  (db !! service = None ->
   _check_quota db service now created
   = (true, <[service := mkTracker service 0 1000 created false None]> db))
  /\ (forall tracker, db !! service = Some tracker ->
       (_check_quota db service now created).2 = db
       /\ (_check_quota db service now created).1 = (check_quota db service now).1.1).
Proof.
  pose proof (client_check_quota_cases db service now created) as H.
  split.
  - intros Hl. by rewrite Hl in H.
  - intros tracker Hl. by rewrite Hl in H.
Qed.

Lemma client_check_quota_creates_witness :
  _check_quota fresh_db "azure" day1_01h day0_23h
  = (true, <["azure" := mkTracker "azure" 0 1000 day0_23h false None]> fresh_db).
Proof.
  apply (proj1 (client_check_quota_creates fresh_db "azure" day1_01h day0_23h)).
  by vm_compute.
Defined.

Lemma track_quota_is_track_usage db service now :
  _track_quota db service now = track_usage db service 1 now.
Proof. reflexivity. Qed.

Section Chat.
Variable post : HuggingFaceClient -> string -> option response.

(** The two ways [chat] ends. *)
Lemma chat_ends c db msg ctx now created later :
  chat post c db msg ctx now created later = (("", false), db)
  \/ chat post c db msg ctx now created later
     = (("", false), (_check_quota db "huggingface" now created).2)
  \/ (is_initialized c = true
      /\ (_check_quota db "huggingface" now created).1 = true
      /\ exists generated_text,
           chat post c db msg ctx now created later
           = ((_extract_response generated_text (_prepare_prompt msg ctx), true),
              _track_quota (_check_quota db "huggingface" now created).2 "huggingface" later)).
Proof.
  unfold chat. destruct (is_initialized c); simpl; [|by left].
  destruct (_check_quota db "huggingface" now created) as [ok db1]. simpl.
  destruct ok; simpl; [|by right; left].
  destruct (post c (_prepare_prompt msg ctx)) as [reply|]; [|by right; left].
  destruct (status_code reply =? 200); [|by right; left].
  destruct (body reply) as [[| | | |[|[| | | | |fields] items]|]|];
    try by (right; left).
  destruct (dict_get fields "generated_text") as [[| | |generated_text| |]|];
    try by (right; left).
  right; right. split; [done|]. split; [done|]. by exists generated_text.
Qed.

Lemma client_chat_counts_successes_aux c db tracker msg ctx now created later :
  db !! "huggingface" = Some tracker ->
  is_initialized c = false \/ (_check_quota db "huggingface" now created).1 = false ->
  chat post c db msg ctx now created later = (("", false), db).
Proof.
  intros Hl H.
  pose proof (client_check_quota_cases db "huggingface" now created) as Hq.
  rewrite Hl in Hq. destruct Hq as [Hdb _].
  destruct (chat_ends c db msg ctx now created later) as [E|[E|(Hi & Hok & g & E)]].
  - exact E.
  - by rewrite E, Hdb.
  - destruct H; congruence.
Qed.

(** X15: [chat] either fails, with the empty text and without
    counting a call, or succeeds and counts exactly one call. Without
    an API key, or when its own check finds the quota used up, it fails
    whatever the API would answer: no request decides the outcome. *)
Theorem client_chat_counts_successes c db tracker msg ctx now created later :
  db !! "huggingface" = Some tracker ->
  let r := chat post c db msg ctx now created later in
  (r.1.2 = false -> r.1.1 = "" /\ r.2 = db)
  /\ (r.1.2 = true ->
      r.2 !! "huggingface"
      = Some (mkTracker (service_name tracker) (daily_calls tracker + 1)
                (daily_limit tracker) (last_reset_date tracker)
                (daily_limit tracker <=? daily_calls tracker + 1) (Some (assigned later))))
  /\ (is_initialized c = false \/ (_check_quota db "huggingface" now created).1 = false ->
      r = (("", false), db)).
Proof.
  intros Hl r.
  pose proof (client_check_quota_cases db "huggingface" now created) as Hq.
  rewrite Hl in Hq. destruct Hq as [Hdb _].
  destruct (chat_ends c db msg ctx now created later) as [E|[E|(Hi & Hok & g & E)]];
    subst r; rewrite E; simpl; rewrite ?Hdb.
  - repeat split; done.
  - repeat split; done.
  - split; [done|]. split.
    + intros _. unfold _track_quota. rewrite Hl. apply lookup_insert_eq.
    + intros [Hni|Hnok]; congruence.
Qed.

End Chat.

Lemma client_chat_counts_successes_witness :
  (chat demo_post demo_client exhausted_db "Hi" None day1_01h day1_01h day1_01h).1
  = ("", false).
Proof.
  pose proof (client_chat_counts_successes demo_post demo_client exhausted_db
                (mkTracker "huggingface" 1000 1000 day0_23h true (Some (assigned day0_23h)))
                "Hi" None day1_01h day1_01h day1_01h ltac:(by vm_compute)) as (_ & _ & H).
  rewrite H; [reflexivity|]. right. by vm_compute.
Defined.

End HuggingFaceFacts.

(** ** Conversation route *)

Module ConversationFacts.
Import Quota HuggingFace Conversation.

Lemma ai_value_best m now :
  Manager.ai_value (get_best_ai_backend m now).1 = "huggingface"
  \/ Manager.ai_value (get_best_ai_backend m now).1 = "ollama".
Proof.
  unfold get_best_ai_backend.
  destruct (check_quota (db m) "huggingface" now) as [[ok rem] db'].
  destruct (ok && (0 <? rem)); simpl; auto.
Qed.

Lemma best_backends m now :
  stt (current_backends (get_best_ai_backend m now).2) = stt (current_backends m)
  /\ tts (current_backends (get_best_ai_backend m now).2) = tts (current_backends m)
  /\ db (get_best_ai_backend m now).2 = (check_quota (db m) "huggingface" now).2.
Proof.
  unfold get_best_ai_backend.
  destruct (check_quota (db m) "huggingface" now) as [[ok rem] db'].
  by destruct (ok && (0 <? rem)).
Qed.

Section Route.
Variable post : HuggingFaceClient -> string -> option HuggingFace.response.
Variable new_uuid : string.

Local Abbreviation route := (Conversation.chat post new_uuid).

(** The route, once the message is accepted. *)
Lemma route_accepted m c request t :
  Voice.text_rejected (message request) = false ->
  let sel := get_best_ai_backend m (at_select t) in
  let r := HuggingFace.chat post c (db sel.2) (message request) (Some [])
             (at_check t) (at_create t) (at_client_track t) in
  route m c request t
  = if negb r.1.2 || bool_decide (r.1.1 = "")
    then (Ok (mkChatResponse fallback_text (session_of new_uuid request) "fallback"),
          mkManager r.2 (current_backends sel.2))
    else (Ok (mkChatResponse r.1.1 (session_of new_uuid request) (Manager.ai_value sel.1)),
          mkManager (track_usage r.2 "huggingface" 1 (at_track t))
            (current_backends sel.2)).
Proof.
  intros Hv. unfold Voice.text_rejected in Hv.
  apply orb_false_iff in Hv as [Hv1 Hv2].
  unfold Conversation.chat. rewrite Hv1, Hv2. simpl.
  destruct (get_best_ai_backend m (at_select t)) as [best m1]. simpl.
  destruct (HuggingFace.chat post c (db m1) (message request) (Some [])
              (at_check t) (at_create t) (at_client_track t)) as [[txt ok] db2]. simpl.
  done.
Qed.

(** X16: a message that is empty, blank or longer than 5000
    characters is refused with status 400 before the quota is looked
    at; every other message is answered, with a text that is not empty:
    the reply of the model or the canned sentence, the latter under the
    backend name [fallback]. The backend named is never any other than
    [huggingface], [ollama] or [fallback]. *)
Theorem chat_always_answers m c request t :
  if Voice.text_rejected (message request)
  then route m c request t = (HTTPException 400, m)
  else exists r,
      (route m c request t).1 = Ok r
      /\ response r <> ""
      /\ response_session_id r = session_of new_uuid request
      /\ (backend_used r = "fallback" -> response r = fallback_text)
      /\ (backend_used r = "huggingface" \/ backend_used r = "ollama"
          \/ backend_used r = "fallback").
Proof.
  destruct (Voice.text_rejected (message request)) eqn:Hv.
  - unfold Voice.text_rejected in Hv. unfold Conversation.chat.
    destruct (bool_decide (message request = "")
              || (String.length (Voice.strip (message request)) =? 0)%nat);
      [done|]. simpl in Hv. by rewrite Hv.
  - rewrite (route_accepted m c request t Hv). cbv zeta.
    destruct (negb _ || bool_decide _) eqn:E.
    + eexists. split; [reflexivity|]. simpl. repeat split; auto.
    + eexists. split; [reflexivity|]. simpl.
      apply orb_false_iff in E as [_ E]. apply bool_decide_eq_false in E.
      split; [exact E|]. split; [done|].
      destruct (ai_value_best m (at_select t)) as [-> | ->]; split; auto; done.
Qed.

(** X17: a request that the model answers is counted twice: once by
    the client inside [chat] and once more by the route. When the
    answer names a backend other than [fallback], the counter of
    [huggingface] stands two calls above what it was after the
    selection of the backend (above zero when the client had to create
    the counter). *)
Theorem chat_counts_twice m c request t r :
  Voice.text_rejected (message request) = false ->
  (route m c request t).1 = Ok r ->
  backend_used r <> "fallback" ->
  exists tracker,
    db (route m c request t).2 !! "huggingface" = Some tracker
    /\ daily_calls tracker
       = match db (get_best_ai_backend m (at_select t)).2 !! "huggingface" with
         | Some before => daily_calls before
         | None => 0
         end + 2.
Proof.
  intros Hv. rewrite (route_accepted m c request t Hv). cbv zeta.
  set (m1 := (get_best_ai_backend m (at_select t)).2).
  destruct (HuggingFaceFacts.chat_ends post c (db m1) (message request) (Some [])
              (at_check t) (at_create t) (at_client_track t)) as [E|[E|(_ & _ & g & E)]];
    rewrite E; simpl; try (intros [= <-]; done).
  case_bool_decide; simpl; [intros [= <-]; done|].
  intros _ _.
  pose proof (HuggingFaceFacts.client_check_quota_cases (db m1) "huggingface"
                (at_check t) (at_create t)) as Hq.
  destruct (db m1 !! "huggingface") as [before|] eqn:Hl.
  - destruct Hq as [-> _].
    eexists. unfold track_usage, _track_quota. rewrite Hl, lookup_insert_eq.
    rewrite lookup_insert_eq. split; [reflexivity|]. simpl. lia.
  - rewrite Hq. simpl.
    eexists. unfold track_usage, _track_quota. rewrite lookup_insert_eq.
    rewrite lookup_insert_eq, lookup_insert_eq. split; [reflexivity|]. simpl. lia.
Qed.

(** X18: when the counter of [huggingface] has reached its limit and
    less than a day has passed since its last reset, the route answers
    the canned sentence under the backend name [fallback], selects
    Ollama as the current backend, and leaves the table as it is,
    whatever the API would have answered. The same answer is given,
    and no call counted by the client or the route, when the client has
    no API key. *)
Theorem chat_falls_back m c request t tracker :
  Voice.text_rejected (message request) = false ->
  db m !! "huggingface" = Some tracker ->
  (daily_limit tracker <= daily_calls tracker
   /\ at_select t < last_reset_date tracker + us_per_day
   /\ at_check t < last_reset_date tracker + us_per_day
   -> route m c request t
      = (Ok (mkChatResponse fallback_text (session_of new_uuid request) "fallback"),
         mkManager (db m)
           (mkBackends AI_OLLAMA (stt (current_backends m)) (tts (current_backends m)))))
  /\ (is_initialized c = false
      -> (route m c request t).1
         = Ok (mkChatResponse fallback_text (session_of new_uuid request) "fallback")
         /\ db (route m c request t).2
            = (check_quota (db m) "huggingface" (at_select t)).2).
Proof.
  intros Hv Hl. split.
  - intros (Hfull & Hs & Hc).
    apply QuotaFacts.new_day_false in Hs. apply QuotaFacts.new_day_false in Hc.
    rewrite (route_accepted m c request t Hv). cbv zeta.
    assert (get_best_ai_backend m (at_select t)
            = (AI_OLLAMA, set_ai AI_OLLAMA m (db m))) as Hsel.
    { unfold get_best_ai_backend.
      rewrite (QuotaFacts.check_quota_same_day _ _ _ _ Hl Hs).
      assert ((daily_calls tracker <? daily_limit tracker) = false) as ->
        by (apply Z.ltb_ge; lia).
      done. }
    rewrite Hsel. simpl.
    assert ((_check_quota (db m) "huggingface" (at_check t) (at_create t)).1 = false) as Hno.
    { pose proof (HuggingFaceFacts.client_check_quota_cases (db m) "huggingface"
                    (at_check t) (at_create t)) as Hq.
      rewrite Hl in Hq. destruct Hq as [_ ->].
      rewrite (QuotaFacts.check_quota_same_day _ _ _ _ Hl Hc). simpl.
      apply Z.ltb_ge. lia. }
    pose proof (HuggingFaceFacts.client_chat_counts_successes_aux post c (db m) tracker
                  (message request) (Some []) (at_check t) (at_create t) (at_client_track t) Hl
                  (or_intror Hno)) as ->.
    done.
  - intros Hni. rewrite (route_accepted m c request t Hv). cbv zeta.
    destruct (best_backends m (at_select t)) as (_ & _ & Hdb).
    unfold HuggingFace.chat. rewrite Hni. simpl. by rewrite Hdb.
Qed.

End Route.

Lemma chat_always_answers_witness :
  exists r,
    (Conversation.chat demo_post "uuid" demo_manager demo_client
       demo_request demo_clock).1 = Ok r
    /\ response r <> ""
    /\ response_session_id r = "uuid"
    /\ (backend_used r = "fallback" -> response r = fallback_text)
    /\ (backend_used r = "huggingface" \/ backend_used r = "ollama"
        \/ backend_used r = "fallback").
Proof.
  exact (chat_always_answers demo_post "uuid" demo_manager demo_client
           demo_request demo_clock).
Defined.

Lemma chat_counts_twice_witness :
  exists tracker,
    db (Conversation.chat demo_post "uuid" demo_manager demo_client
          demo_request demo_clock).2 !! "huggingface" = Some tracker
    /\ daily_calls tracker = 2.
Proof.
  destruct (chat_counts_twice demo_post "uuid" demo_manager demo_client
              demo_request demo_clock
              (mkChatResponse "Hello there." "uuid" "huggingface"))
    as (tracker & Hl & Hc).
  - reflexivity.
  - by vm_compute.
  - discriminate.
  - exists tracker. split; [exact Hl|]. rewrite Hc. by vm_compute.
Defined.

Lemma chat_falls_back_witness :
  Conversation.chat demo_post "uuid" (mkManager exhausted_db (current_backends demo_manager))
    demo_client demo_request demo_clock
  = (Ok (mkChatResponse fallback_text "uuid" "fallback"),
     mkManager exhausted_db (mkBackends AI_OLLAMA STT_VOSK TTS_PYTTSX3)).
Proof.
  apply (proj1 (chat_falls_back demo_post "uuid"
                  (mkManager exhausted_db (current_backends demo_manager))
                  demo_client demo_request demo_clock
                  (mkTracker "huggingface" 1000 1000 day0_23h true (Some (assigned day0_23h)))
                  eq_refl ltac:(by vm_compute))).
  repeat split; by vm_compute.
Defined.

End ConversationFacts.

(** ** Audio processor: further properties *)

Module SignalFacts.
Import Processor Signal.

(** *** Chunking *)

Lemma range_len_negative_step n c : 0 <= n -> c < 0 -> range_len 0 n c = 0.
Proof.
  intros Hn Hc. unfold range_len.
  destruct (0 <? c) eqn:E; [apply Z.ltb_lt in E; lia|].
  destruct (n <? 0) eqn:E'; [apply Z.ltb_lt in E'; lia | done].
Qed.

(** X19: [split_audio_chunks] raises exactly when the chunk size is
    zero, whatever the frame, the empty one included. With a negative
    chunk size (a negative rate or duration) it returns no chunk at
    all, and with any chunk size other than zero the empty frame gives
    no chunk. *)
Theorem split_audio_chunks_domain (audio_data : frame) (sample_rate d : Z) :
  (split_audio_chunks audio_data sample_rate d = None <-> chunk_size sample_rate d = 0)
  /\ (chunk_size sample_rate d < 0 ->
      split_audio_chunks audio_data sample_rate d = Some [])
  /\ (chunk_size sample_rate d <> 0 ->
      split_audio_chunks [] sample_rate d = Some []).
Proof.
  unfold split_audio_chunks, py_range. repeat split.
  - destruct (chunk_size sample_rate d =? 0) eqn:E; [|done].
    intros _. by apply Z.eqb_eq.
  - intros ->. done.
  - intros Hc. destruct (chunk_size sample_rate d =? 0) eqn:E;
      [apply Z.eqb_eq in E; lia|].
    by rewrite range_len_negative_step by lia.
  - intros Hc. destruct (chunk_size sample_rate d =? 0) eqn:E;
      [by apply Z.eqb_eq in E|].
    simpl. unfold range_len. by destruct (0 <? chunk_size sample_rate d).
Qed.

Lemma split_audio_chunks_domain_witness :
  split_audio_chunks [1; 2; 3] 16000 (-5) = Some []
  /\ split_audio_chunks [] 16000 5 = Some [].
Proof.
  destruct (split_audio_chunks_domain [1; 2; 3] 16000 (-5)) as (_ & H1 & _).
  destruct (split_audio_chunks_domain [1; 2; 3] 16000 5) as (_ & _ & H2).
  split; [apply H1; reflexivity | apply H2; discriminate].
Defined.

(** X20: at the duration of 5000 ms that the transcription route
    passes, the chunk size is five times the sample rate: for every
    positive rate the split returns, its chunks have exactly that many
    samples but for a shorter last one, and put together they are the
    frame. *)
Theorem split_audio_chunks_five_seconds (audio_data : frame) (sample_rate : Z) :
  0 < sample_rate ->
  chunk_size sample_rate 5000 = 5 * sample_rate
  /\ exists chunks,
      split_audio_chunks audio_data sample_rate 5000 = Some chunks
      /\ concatenate_chunks chunks = audio_data
      /\ Forall (fun chunk => 0 < Z.of_nat (length chunk) <= 5 * sample_rate) chunks
      /\ Z.of_nat (length chunks)
         = (Z.of_nat (length audio_data) + 5 * sample_rate - 1) `div` (5 * sample_rate).
Proof.
  intros Hsr.
  assert (chunk_size sample_rate 5000 = 5 * sample_rate) as Hcs.
  { unfold chunk_size. replace (sample_rate * 5000) with (5 * sample_rate * 1000) by lia.
    apply Z.quot_mul. lia. }
  split; [exact Hcs|].
  assert (0 < chunk_size sample_rate 5000) as Hpos by lia.
  eexists. split; [by apply ProcessorFacts.split_audio_chunks_eq|].
  rewrite ProcessorFacts.concatenate_chunks_concat.
  split; [by apply ProcessorFacts.split_then_concatenate_equation|].
  rewrite Hcs. set (c := 5 * sample_rate) in *. set (n := Z.of_nat (length audio_data)).
  assert (range_len 0 n c = (n + c - 1) `div` c) as Hlen.
  { rewrite ProcessorFacts.range_len_ceil by lia.
    pose proof (Z.div_mod n c ltac:(lia)) as Hdm.
    pose proof (Z.mod_pos_bound n c ltac:(lia)) as Hb.
    assert (0 <= n `div` c) by (apply Z.div_pos; lia).
    destruct (n `mod` c =? 0) eqn:Er.
    - apply Z.eqb_eq in Er.
      apply (Z.div_unique_pos _ _ _ (c - 1)); lia.
    - apply Z.eqb_neq in Er.
      apply (Z.div_unique_pos _ _ _ (n `mod` c - 1)); lia. }
  split.
  - apply Forall_fmap, Forall_forall. intros j Hj. simpl.
    rewrite ProcessorFacts.length_chunk_at.
    apply elem_of_seq in Hj as [_ Hj]. simpl in Hj.
    assert (Z.of_nat j < range_len 0 n c) as Hj'.
    { assert (0 <= range_len 0 n c).
      { rewrite Hlen. apply Z.div_pos; lia. }
      lia. }
    rewrite ProcessorFacts.range_len_ceil in Hj' by lia.
    pose proof (Z.div_mod n c ltac:(lia)) as Hdm.
    pose proof (Z.mod_pos_bound n c ltac:(lia)) as Hb.
    assert (Z.of_nat j * c < n).
    { destruct (n `mod` c =? 0) eqn:Er; [apply Z.eqb_eq in Er|]; nia. }
    subst n. nia.
  - rewrite length_fmap, length_seq, Z2Nat.id; [exact Hlen|].
    rewrite Hlen. apply Z.div_pos; lia.
Qed.

Lemma split_audio_chunks_five_seconds_witness :
  chunk_size 1 5000 = 5
  /\ exists chunks,
      split_audio_chunks [1; 2; 3; 4; 5; 6; 7] 1 5000 = Some chunks
      /\ concatenate_chunks chunks = [1; 2; 3; 4; 5; 6; 7]
      /\ Forall (fun chunk => 0 < Z.of_nat (length chunk) <= 5 * 1) chunks
      /\ Z.of_nat (length chunks) = 2.
Proof.
  apply (split_audio_chunks_five_seconds [1; 2; 3; 4; 5; 6; 7] 1). reflexivity.
Defined.

(** The chunks of a frame, in closed form. *)
Lemma chunks_of_nil (c : Z) :
  0 < c ->
  chunk_at [] (Z.to_nat c) <$> seq 0 (Z.to_nat (range_len 0 (Z.of_nat (@length Z [])) c))
  = [].
Proof. intros Hc. unfold range_len. simpl. by destruct (0 <? c). Qed.

Lemma chunks_of_short (x : frame) (c : Z) :
  (0 < length x <= Z.to_nat c)%nat ->
  chunk_at x (Z.to_nat c) <$> seq 0 (Z.to_nat (range_len 0 (Z.of_nat (length x)) c))
  = [x].
Proof.
  intros Hx. assert (0 < c) as Hc by lia.
  assert (range_len 0 (Z.of_nat (length x)) c = 1) as ->.
  { rewrite ProcessorFacts.range_len_ceil by lia.
    destruct (decide (Z.of_nat (length x) = c)) as [->|Hne].
    - rewrite Z.div_same, Z.mod_same by lia. done.
    - rewrite Z.div_small, Z.mod_small by lia.
      destruct (Z.of_nat (length x) =? 0) eqn:E; [apply Z.eqb_eq in E; lia | done]. }
  change (Z.to_nat 1) with 1%nat. cbn [seq fmap list_fmap]. unfold chunk_at.
  rewrite Nat.mul_0_l, drop_0. f_equal. apply take_ge. lia.
Qed.

Lemma chunks_of_full (x rest : frame) (c : Z) :
  0 < c -> length x = Z.to_nat c ->
  chunk_at (x ++ rest) (Z.to_nat c)
    <$> seq 0 (Z.to_nat (range_len 0 (Z.of_nat (length (x ++ rest))) c))
  = x :: (chunk_at rest (Z.to_nat c)
            <$> seq 0 (Z.to_nat (range_len 0 (Z.of_nat (length rest)) c))).
Proof.
  intros Hc Hx.
  assert (range_len 0 (Z.of_nat (length (x ++ rest))) c
          = 1 + range_len 0 (Z.of_nat (length rest)) c) as ->.
  { rewrite !ProcessorFacts.range_len_ceil by lia. rewrite length_app.
    replace (Z.of_nat (length x + length rest))
      with (Z.of_nat (length rest) + 1 * c) by lia.
    rewrite Z.div_add, Z.mod_add by lia. lia. }
  assert (0 <= range_len 0 (Z.of_nat (length rest)) c) as Hnn.
  { rewrite ProcessorFacts.range_len_ceil by lia.
    assert (0 <= Z.of_nat (length rest) `div` c) by (apply Z.div_pos; lia).
    case_match; lia. }
  replace (Z.to_nat (1 + range_len 0 (Z.of_nat (length rest)) c))
    with (S (Z.to_nat (range_len 0 (Z.of_nat (length rest)) c))) by lia.
  cbn [seq fmap list_fmap]. f_equal.
  - unfold chunk_at. rewrite Nat.mul_0_l, drop_0. apply take_app_length'. lia.
  - rewrite <- fmap_S_seq, <- list_fmap_compose. apply list_fmap_ext.
    intros i j _. unfold chunk_at, compose. f_equal.
    replace (S j * Z.to_nat c)%nat with (length x + j * Z.to_nat c)%nat by lia.
    by rewrite drop_app_add.
Qed.

(** X21: splitting is the inverse of concatenating on the lists that
    splitting produces: for chunks of [c >= 1] samples followed by at
    most one shorter, non-empty chunk, splitting their concatenation
    gives the same chunks back. *)
Theorem split_concatenate_chunks (chunks : list frame) (sample_rate d : Z) :
  0 < chunk_size sample_rate d ->
  well_chunked (Z.to_nat (chunk_size sample_rate d)) chunks ->
  split_audio_chunks (concatenate_chunks chunks) sample_rate d = Some chunks.
Proof.
  intros Hc Hw. rewrite (ProcessorFacts.split_audio_chunks_eq _ _ _ Hc).
  rewrite ProcessorFacts.concatenate_chunks_concat. f_equal.
  set (c := chunk_size sample_rate d) in *.
  induction chunks as [|x rest IH].
  - by apply chunks_of_nil.
  - destruct rest as [|y rest].
    + simpl in *. rewrite app_nil_r. by apply chunks_of_short.
    + destruct Hw as [Hx Hw].
      change (concat (x :: y :: rest)) with (x ++ concat (y :: rest)).
      rewrite (chunks_of_full x (concat (y :: rest)) c Hc Hx). f_equal.
      by apply IH.
Qed.

Lemma split_concatenate_chunks_witness :
  split_audio_chunks (concatenate_chunks [[1; 2]; [3; 4]; [5]]) 1000 2
  = Some [[1; 2]; [3; 4]; [5]].
Proof.
  apply (split_concatenate_chunks [[1; 2]; [3; 4]; [5]] 1000 2).
  - reflexivity.
  - change (Z.to_nat (chunk_size 1000 2)) with 2%nat. simpl. lia.
Defined.

(** *** Gain, sample by sample *)

Lemma concat_fmap_fmap {A B} (f : A -> B) (ls : list (list A)) :
  concat ((fun l : list A => f <$> l) <$> ls) = f <$> concat ls.
Proof.
  induction ls as [|l ls IH]; [done|].
  rewrite fmap_cons. cbn [concat]. by rewrite IH, fmap_app.
Qed.

(** X22: [apply_gain] works sample by sample: applying it to the
    chunks of a list and concatenating gives what applying it to the
    concatenation gives, and both it and [normalize_audio] return as
    many samples as they are given. *)
Theorem apply_gain_chunkwise
    (fround : Q -> float) (invalid_cast : float -> Z)
    (gain_linear : float -> option float) (rms_of : frame -> float)
    (normalize_gain : float -> float -> option float)
    (chunks : list frame) (audio_data : frame) (gain_db target_db : float) :
  concatenate_chunks
    ((fun chunk => apply_gain fround invalid_cast gain_linear chunk gain_db) <$> chunks)
  = apply_gain fround invalid_cast gain_linear (concatenate_chunks chunks) gain_db
  /\ length (apply_gain fround invalid_cast gain_linear audio_data gain_db)
     = length audio_data
  /\ length (normalize_audio fround invalid_cast rms_of normalize_gain audio_data target_db)
     = length audio_data.
Proof.
  rewrite !ProcessorFacts.concatenate_chunks_concat. unfold apply_gain, normalize_audio.
  repeat split.
  - destruct (gain_linear gain_db) as [gain|].
    + apply (concat_fmap_fmap (scale_sample fround invalid_cast gain)).
    + by rewrite list_fmap_id.
  - destruct (gain_linear gain_db); [apply length_fmap | done].
  - repeat case_match; try done; apply length_fmap.
Qed.

(** *** Resampling and silence *)

(** X23: [resample_audio] returns the frame itself when the two rates
    are equal or the resampler raises. Otherwise it returns one 16-bit
    sample for each value of the resampler: the value times 32767, cut
    to an integer and, when it is outside the 16-bit range, held at the
    nearer bound instead of wrapped around; an infinite product gives
    the bound of its sign. *)
Theorem resample_audio_identity_and_range
    (fround : Q -> float) (invalid_cast : float -> Z)
    (librosa_resample : list float -> Z -> Z -> option (list float))
    (audio_data : frame) (orig_sr target_sr : Z) (resampled : list float) :
  let resample := resample_audio fround invalid_cast librosa_resample in
  resample audio_data orig_sr orig_sr = audio_data
  /\ (librosa_resample (to_unit fround <$> audio_data) orig_sr target_sr = None ->
      resample audio_data orig_sr target_sr = audio_data)
  /\ (orig_sr <> target_sr ->
      librosa_resample (to_unit fround <$> audio_data) orig_sr target_sr
      = Some resampled ->
      length (resample audio_data orig_sr target_sr) = length resampled
      /\ forall i x, resampled !! i = Some x ->
           exists s, resample audio_data orig_sr target_sr !! i = Some s
             /\ in_int16 s
             /\ (forall p, fmul fround x (Fin 32767) = Fin p ->
                   s = saturate16 (truncate p))
             /\ (forall negative, fmul fround x (Fin 32767) = Infinity negative ->
                   s = if negative then -32768 else 32767)).
Proof.
  cbv zeta. unfold resample_audio. split; [|split].
  - by rewrite Z.eqb_refl.
  - intros ->. by destruct (orig_sr =? target_sr).
  - intros Hsr Hres. apply Z.eqb_neq in Hsr. rewrite Hsr, Hres.
    split; [apply length_fmap|].
    intros i x Hx.
    exists (astype_int16 invalid_cast
              (clip (fmul fround x (Fin 32767)) (-32768 # 1) (32767 # 1))).
    split; [unfold frame; by rewrite list_lookup_fmap, Hx|].
    unfold astype_int16. split; [case_match; apply ProcessorFacts.wrap16_in_range|].
    split.
    + intros p ->. simpl. rewrite ProcessorFacts.truncate_clip.
      apply ProcessorFacts.wrap16_id, ProcessorFacts.saturate16_in_range.
    + intros negative ->. by destruct negative.
Qed.

Lemma resample_audio_identity_and_range_witness :
  exists s,
    resample_audio exact_round zero_cast
      (fun _ _ _ => Some [Fin (3 # 2); Fin (-1 # 2)]) [20000; -32768] 16000 8000
    !! 0%nat = Some s
    /\ s = 32767.
Proof.
  destruct (resample_audio_identity_and_range exact_round zero_cast
              (fun _ _ _ => Some [Fin (3 # 2); Fin (-1 # 2)])
              [20000; -32768] 16000 8000 [Fin (3 # 2); Fin (-1 # 2)])
    as (_ & _ & H).
  destruct H as (_ & H); [discriminate | reflexivity |].
  destruct (H 0%nat (Fin (3 # 2)) eq_refl) as (s & Hs & _ & Hfin & _).
  exists s. split; [exact Hs|]. rewrite (Hfin _ eq_refl). reflexivity.
Defined.

(** X24: [remove_silence] removes nothing from inside a frame: it
    returns the frame as it is or no sample at all. It returns no
    sample when the spectrogram is computed, the energy is not above
    zero (a frame of zeros, or an energy that is not a number) and the
    threshold is above minus infinity. *)
Theorem remove_silence_all_or_nothing
    (fround : Q -> float) (melspectrogram_raises : list float -> Z -> bool)
    (energy_of : list float -> float) (decibels : float -> float)
    (audio_data : frame) (sample_rate : Z) (threshold_db : float) :
  let result := remove_silence fround melspectrogram_raises energy_of decibels
                  audio_data sample_rate threshold_db in
  (result = audio_data \/ result = [])
  /\ (melspectrogram_raises (to_unit fround <$> audio_data) sample_rate = false ->
      flt (Fin 0) (energy_of (to_unit fround <$> audio_data)) = false ->
      flt (Infinity true) threshold_db = true ->
      result = []).
Proof.
  unfold remove_silence. split.
  - repeat case_match; auto.
  - intros -> -> ->. done.
Qed.

Lemma remove_silence_all_or_nothing_witness :
  remove_silence exact_round (fun _ _ => false) (fun _ => Fin 0) (fun x => x)
    [0; 0; 0] 16000 (Fin (-40))
  = [].
Proof.
  apply (proj2 (remove_silence_all_or_nothing exact_round (fun _ _ => false)
                  (fun _ => Fin 0) (fun x => x) [0; 0; 0] 16000 (Fin (-40))));
    reflexivity.
Defined.

End SignalFacts.

(** ** Speech synthesis route: further properties *)

Module VoiceRouteFacts.
Import Voice VoiceRoutes.

(** *** Volume *)

Section Volume.
Import Processor.

Lemma Qle_bool_false a b : Qle_bool a b = false -> (b < a)%Q.
Proof.
  intros H. apply Qnot_le_lt. intros Hle. apply Qle_bool_iff in Hle. congruence.
Qed.

Lemma set_volume_fin q :
  set_volume (Fin q)
  = if Qle_bool 1 q then Fin 1 else if Qle_bool q 0 then Fin 0 else Fin q.
Proof.
  unfold set_volume, Signal.py_min, Signal.py_max, Signal.flt.
  destruct (Qle_bool 1 q); simpl; [done|]. by destruct (Qle_bool q 0).
Qed.

(** X25: [set_volume] always hands the driver a number between 0 and
    1: a volume in that range goes through (as the same number), a
    larger one or plus infinity becomes 1, a smaller one or minus
    infinity becomes 0, and a volume that is not a number becomes 1.
    Clamping twice is clamping once. *)
Theorem set_volume_clamps (volume : float) :
  (exists q, set_volume volume = Fin q /\ (0 <= q)%Q /\ (q <= 1)%Q)
  /\ set_volume NaN = Fin 1
  /\ set_volume (Infinity false) = Fin 1
  /\ set_volume (Infinity true) = Fin 0
  /\ (forall q, (0 <= q)%Q -> (q <= 1)%Q ->
        exists q', set_volume (Fin q) = Fin q' /\ (q' == q)%Q)
  /\ set_volume (set_volume volume) = set_volume volume.
Proof.
  split; [|split; [done|split; [done|split; [done|split]]]].
  - destruct volume as [|[|]|q]; [by exists 1%Q | by exists 0%Q | by exists 1%Q |].
    rewrite set_volume_fin.
    destruct (Qle_bool 1 q) eqn:E1; [by exists 1%Q|].
    destruct (Qle_bool q 0) eqn:E0; [by exists 0%Q|].
    exists q. split; [done|]. split.
    + apply Qlt_le_weak. by apply Qle_bool_false.
    + apply Qlt_le_weak. by apply Qle_bool_false.
  - intros q H0 H1. rewrite set_volume_fin.
    destruct (Qle_bool 1 q) eqn:E1.
    + exists 1%Q. split; [done|]. apply Qle_bool_iff in E1. by apply Qle_antisym.
    + destruct (Qle_bool q 0) eqn:E0.
      * exists 0%Q. split; [done|]. apply Qle_bool_iff in E0. by apply Qle_antisym.
      * by exists q.
  - destruct volume as [|[|]|q]; [done..|].
    rewrite set_volume_fin.
    destruct (Qle_bool 1 q) eqn:E1; [done|].
    destruct (Qle_bool q 0) eqn:E0; [done|].
    by rewrite set_volume_fin, E1, E0.
Qed.

Lemma set_volume_clamps_witness :
  exists q', set_volume (Fin (9 # 10)) = Fin q' /\ (q' == 9 # 10)%Q.
Proof.
  apply (proj1 (proj2 (proj2 (proj2 (proj2 (set_volume_clamps NaN))))) (9 # 10));
    discriminate.
Defined.

End Volume.

(** *** Voices *)

Lemma list_voices_lookup e i :
  list_voices e !! i
  = (fun v => mkEntry i (id v) (name v)) <$> available_voices e !! i.
Proof. unfold list_voices. apply list_lookup_imap. Qed.

(** X26: route [/voices] answers 503 when the engine is not
    initialised and otherwise lists the voices of the driver, one entry
    each and in their order, with their number. The index an entry
    carries is its position, and [set_voice] on that index sets the
    voice of that entry; an index past the end leaves the engine as it
    is. *)
Theorem list_voices_indices e i :
  list_voices_route e
  = (if is_initialized e
     then Some (list_voices e, length (available_voices e), 0%nat) else None)
  /\ (forall x, list_voices e !! i = Some x ->
        exists v, available_voices e !! i = Some v
          /\ x = mkEntry i (id v) (name v)
          /\ (set_voice e (entry_index x)).1
             = mkEngine (is_initialized e) (available_voices e) (entry_id x)
                 (rate_property e))
  /\ ((length (available_voices e) <= i)%nat -> (set_voice e i).1 = e).
Proof.
  split; [|split].
  - unfold list_voices_route, list_voices. rewrite length_imap.
    by destruct (is_initialized e).
  - intros x Hx. rewrite list_voices_lookup in Hx. unfold set_voice.
    destruct (available_voices e !! i) as [v|] eqn:E; simplify_eq/=.
    exists v. by rewrite E.
  - intros Hi. unfold set_voice. by rewrite lookup_ge_None_2.
Qed.

Lemma list_voices_indices_witness :
  (set_voice demo_engine 7).1 = demo_engine.
Proof.
  apply (proj2 (proj2 (list_voices_indices demo_engine 7))). simpl. lia.
Defined.

Lemma select_voice_match e v i x :
  v <> "" -> v <> "default" ->
  list_voices e !! i = Some x ->
  lower (entry_name x) = lower v ->
  (forall j y, (j < i)%nat -> list_voices e !! j = Some y ->
               lower (entry_name y) <> lower v) ->
  select_voice e (Some v)
  = (mkEngine (is_initialized e) (available_voices e) (entry_id x) (rate_property e),
     [info_voice_set (entry_name x)]).
Proof.
  intros Hne Hnd Hx Hm Hfirst. unfold select_voice.
  rewrite !bool_decide_eq_false_2 by done. simpl.
  assert (list_find (fun y => voice_matches v y = true) (list_voices e) = Some (i, x))
    as ->.
  { apply list_find_Some. split; [exact Hx|]. split.
    - unfold voice_matches. by apply bool_decide_eq_true.
    - intros j y Hy Hj Hmatch. apply (Hfirst j y Hj Hy).
      unfold voice_matches in Hmatch. by apply bool_decide_eq_true in Hmatch. }
  rewrite list_voices_lookup in Hx. unfold set_voice.
  destruct (available_voices e !! i) as [v0|]; by simplify_eq/=.
Qed.

(** X27: a request that names a voice is served with the first entry
    of the list whose name equals the requested one up to letter case:
    the voice of the engine becomes the id of that entry, the event is
    logged, and the rate and the list of voices are not touched. Two
    spellings of the name that differ in letter case only select the
    same. *)
Theorem select_voice_first_match e v v' i x :
  v <> "" -> v <> "default" ->
  list_voices e !! i = Some x ->
  lower (entry_name x) = lower v ->
  (forall j y, (j < i)%nat -> list_voices e !! j = Some y ->
               lower (entry_name y) <> lower v) ->
  v' <> "" -> v' <> "default" -> lower v' = lower v ->
  select_voice e (Some v)
  = (mkEngine (is_initialized e) (available_voices e) (entry_id x) (rate_property e),
     [info_voice_set (entry_name x)])
  /\ select_voice e (Some v') = select_voice e (Some v).
Proof.
  intros Hne Hnd Hx Hm Hfirst Hne' Hnd' Hlow.
  rewrite (select_voice_match e v i x Hne Hnd Hx Hm Hfirst). split; [done|].
  apply (select_voice_match e v' i x Hne' Hnd' Hx).
  - by rewrite Hlow.
  - intros j y Hj Hy. rewrite Hlow. by apply (Hfirst j y).
Qed.

Lemma select_voice_first_match_witness :
  select_voice demo_engine (Some "ZIRA")
  = (mkEngine true (available_voices demo_engine) "voice/1" 200,
     [info_voice_set "Zira"])
  /\ select_voice demo_engine (Some "zirA") = select_voice demo_engine (Some "ZIRA").
Proof.
  apply (select_voice_first_match demo_engine "ZIRA" "zirA" 1
           (mkEntry 1 "voice/1" "Zira"));
    [discriminate | discriminate | reflexivity | reflexivity |
     | discriminate | discriminate | reflexivity].
  intros [|j] y Hj Hy; [|lia]. injection Hy as <-. discriminate.
Defined.

Lemma length_zero_empty (s : string) : String.length s = 0%nat <-> s = "".
Proof. by destruct s. Qed.

Section Route.
Context {wav : Type}.
Variable fround : Q -> Processor.float.
Variable created : Quota.datetime.
Variable save_to_file : Pyttsx3Engine -> string -> option wav.
Variable read_audio_file : wav -> option (list Z * Z).
Variable b64encode : list Z -> string.

Local Abbreviation speak :=
  (speak_text wav fround created save_to_file read_audio_file b64encode).

(** The engine and the table after a request. *)
Lemma speak_text_engine w request :
  engine (speak w request).2
  = (if text_rejected (text request) || negb (is_initialized (engine w))
     then engine w
     else match py_int (Processor.fmul fround (Processor.Fin 150) (speed request)) with
          | Some rate =>
              (set_rate (select_voice (engine w) (req_voice request)).1 rate).1
          | None => (select_voice (engine w) (req_voice request)).1
          end)
  /\ database (speak w request).2
     = (if text_rejected (text request) then database w
        else Quota.db (Quota.get_quota_manager (quota_manager w) (database w) created))
  /\ (text_rejected (text request) = false ->
      is_Some (quota_manager (speak w request).2)).
Proof.
  unfold speak_text, text_rejected, speak_to_file.
  destruct (bool_decide (text request = "") || _); [done|].
  destruct (5000 <? _)%nat; [done|]. simpl.
  destruct (is_initialized (engine w)) eqn:Ei; [|done]. simpl.
  destruct (select_voice (engine w) (req_voice request)) as [e1 log1] eqn:Es. simpl.
  assert (is_initialized e1 = true) as Hi1.
  { unfold select_voice, set_voice in Es.
    repeat case_match; simplify_eq/=; done. }
  destruct (py_int _) as [rate|]; [|done]. simpl.
  rewrite Hi1. simpl.
  destruct (save_to_file _ _); [|done].
  destruct (read_audio_file _) as [[samples sr]|]; [|done].
  destruct (req_voice request); destruct (sr =? 0); done.
Qed.

Lemma speak_text_400 w request :
  (speak w request).1 = HTTPException 400 -> text_rejected (text request) = true.
Proof.
  unfold speak_text, text_rejected, speak_to_file.
  destruct (bool_decide (text request = "") || _); [done|].
  destruct (5000 <? _)%nat; [done|]. simpl.
  destruct (is_initialized (engine w)) eqn:Ei; [|done]. simpl.
  destruct (select_voice (engine w) (req_voice request)) as [e1 log1]. simpl.
  destruct (py_int _) as [rate|]; [|done]. simpl.
  destruct (negb (is_initialized e1)); [done|].
  destruct (save_to_file _ _); [|done].
  destruct (read_audio_file _) as [[samples sr]|]; [|done].
  destruct (req_voice request); by destruct (sr =? 0).
Qed.

(** X28: the route checks the text first: a text its checks refuse
    gets status 400 and nothing changes; of the texts the schema of the
    request lets through (1 to 1000 characters) these are exactly the
    blank ones, so the check against 5000 characters never decides.
    With an engine that is not initialised an accepted text is refused
    with status 503 and the engine stays as it is. An accepted request
    leaves the process with a quota manager: the first one builds it,
    which adds to the table the configured services that have no row,
    and once the manager exists the table is not changed. A request
    that is answered names in [voice_used] the voice the request asked
    for, so a request without a voice is never answered; a speed that
    is not a number is never answered either. *)
Theorem speak_text_gates w request :
  (text_rejected (text request) = true -> speak w request = (HTTPException 400, w))
  /\ (schema_accepts (text request) = true ->
      (text_rejected (text request) = true <-> strip (text request) = ""))
  /\ (text_rejected (text request) = false ->
      is_initialized (engine w) = false ->
      (speak w request).1 = HTTPException 503
      /\ engine (speak w request).2 = engine w)
  /\ (text_rejected (text request) = false ->
      is_Some (quota_manager (speak w request).2)
      /\ database (speak w request).2
         = match quota_manager w with
           | Some _ => database w
           | None => Quota._initialize_quota_trackers (database w) created
           end)
  /\ (forall r, (speak w request).1 = Ok r ->
        req_voice request = Some (voice_used r)
        /\ text_rejected (text request) = false
        /\ is_initialized (engine w) = true
        /\ is_Some (py_int (Processor.fmul fround (Processor.Fin 150) (speed request)))).
Proof.
  split; [|split; [|split; [|split]]].
  - unfold speak_text, text_rejected. intros H.
    destruct (bool_decide (text request = "") || _); [done|]. simpl in H.
    by rewrite H.
  - unfold schema_accepts, text_rejected. intros Hs.
    apply andb_true_iff in Hs as [_ Hs]. apply Nat.leb_le in Hs.
    assert ((5000 <? String.length (text request))%nat = false) as ->
      by (apply Nat.ltb_ge; lia).
    rewrite orb_false_r, orb_true_iff, bool_decide_eq_true, Nat.eqb_eq,
      length_zero_empty.
    split; [|by right]. by intros [-> | H].
  - unfold speak_text, text_rejected. intros H Hi.
    apply orb_false_iff in H as [-> ->]. simpl. by rewrite Hi.
  - intros H. destruct (speak_text_engine w request) as (_ & Hdb & Hm).
    split; [by apply Hm|]. rewrite Hdb, H. by destruct (quota_manager w).
  - intros r. unfold speak_text, text_rejected, speak_to_file.
    destruct (bool_decide (text request = "") || _); [done|].
    destruct (5000 <? _)%nat; [done|]. simpl.
    destruct (is_initialized (engine w)) eqn:Ei; [|done]. simpl.
    destruct (select_voice (engine w) (req_voice request)) as [e1 log1]. simpl.
    destruct (py_int _) as [rate|]; [|done]. simpl.
    destruct (negb (is_initialized e1)); [done|].
    destruct (save_to_file _ _); [|done].
    destruct (read_audio_file _) as [[samples sr]|]; [|done].
    destruct (req_voice request); destruct (sr =? 0); try done.
    by intros [= <-].
Qed.

(** X29: the engine is shared by all requests, and a voice chosen by
    one request stays: after an accepted request that names a known
    voice, a later request for the default voice (or for none) is
    spoken with the voice the earlier request chose. *)
Theorem voice_carries_over w first later v i x :
  text_rejected (text first) = false ->
  is_initialized (engine w) = true ->
  req_voice first = Some v ->
  v <> "" -> v <> "default" ->
  list_voices (engine w) !! i = Some x ->
  lower (entry_name x) = lower v ->
  (forall j y, (j < i)%nat -> list_voices (engine w) !! j = Some y ->
               lower (entry_name y) <> lower v) ->
  req_voice later = Some "default" \/ req_voice later = None ->
  voice_property (engine (speak w first).2) = entry_id x
  /\ voice_property (engine (speak (speak w first).2 later).2) = entry_id x.
Proof.
  intros Ht Hi Hv Hne Hnd Hx Hm Hfirst Hlater.
  destruct (speak_text_engine w first) as [E1 _].
  rewrite Ht, Hi, Hv in E1.
  rewrite (select_voice_match _ _ _ _ Hne Hnd Hx Hm Hfirst) in E1.
  simpl in E1.
  assert (voice_property (engine (speak w first).2) = entry_id x) as Hfirst_voice.
  { rewrite E1. by destruct (py_int _). }
  split; [exact Hfirst_voice|].
  destruct (speak_text_engine (speak w first).2 later) as [E2 _].
  rewrite E2. destruct (text_rejected (text later) || _); [exact Hfirst_voice|].
  assert ((select_voice (engine (speak w first).2) (req_voice later)).1
          = engine (speak w first).2) as ->
    by (destruct Hlater as [-> | ->]; reflexivity).
  clear E1 E2.
  destruct (py_int (Processor.fmul fround (Processor.Fin 150) (speed later)));
    exact Hfirst_voice.
Qed.

(** X30: the text [preview_voice] speaks is never empty and never
    longer than 200 characters, so a preview is never refused for its
    length; it is the text given when that has between 1 and 200
    characters, and the greeting when none is given. *)
Theorem preview_text_bounds (txt : string) :
  (0 < String.length (preview_text txt) <= 200)%nat
  /\ ((0 < String.length txt <= 200)%nat -> preview_text txt = txt)
  /\ preview_text "" = "Hello, this is a voice preview"
  /\ forall w voice_name,
       (preview_voice wav fround created save_to_file read_audio_file b64encode
          w voice_name txt).1
       = HTTPException 400 ->
       String.length (Voice.strip (preview_text txt)) = 0%nat.
Proof.
  assert (forall n s, String.length (String.substring 0 n s) = (n `min` String.length s)%nat)
    as Hsub.
  { induction n as [|n IH]; intros [|c s]; simpl; auto. }
  assert (forall s, s <> "" -> (0 < String.length s)%nat) as Hpos.
  { intros [|c s] H; [done | simpl; lia]. }
  repeat split.
  - unfold preview_text. case_bool_decide.
    + simpl. lia.
    + destruct (200 <? String.length txt)%nat eqn:E.
      * apply Nat.ltb_lt in E. unfold first_200. rewrite Hsub. lia.
      * by apply Hpos.
  - unfold preview_text. case_bool_decide.
    + simpl. lia.
    + destruct (200 <? String.length txt)%nat eqn:E.
      * unfold first_200. rewrite Hsub. lia.
      * apply Nat.ltb_ge in E. done.
  - intros [Hl Hu]. unfold preview_text.
    rewrite bool_decide_eq_false_2 by (intros ->; simpl in Hl; lia).
    destruct (200 <? String.length txt)%nat eqn:E; [|done].
    apply Nat.ltb_lt in E. lia.
  - assert ((5000 <? String.length (preview_text txt))%nat = false) as Hlen.
    { apply Nat.ltb_ge. unfold preview_text. case_bool_decide; [simpl; lia|].
      destruct (200 <? String.length txt)%nat eqn:E.
      - unfold first_200. rewrite Hsub. lia.
      - apply Nat.ltb_ge in E. lia. }
    intros w voice_name Hout. unfold preview_voice in Hout.
    apply speak_text_400 in Hout. unfold text_rejected in Hout. simpl in Hout.
    rewrite Hlen, orb_false_r in Hout.
    apply orb_true_iff in Hout as [E|E].
    + apply bool_decide_eq_true in E. by rewrite E.
    + by apply Nat.eqb_eq in E.
Qed.

End Route.

Lemma speak_text_gates_witness :
  speak_text unit Processor.exact_round Quota.day0_23h demo_save demo_read demo_b64
    configured_world (mkRequest "  " (Some "Zira") (Processor.Fin 1))
  = (HTTPException 400, configured_world)
  /\ database
       (speak_text unit Processor.exact_round Quota.day0_23h demo_save demo_read demo_b64
          configured_world david_request).2
     = Quota.fresh_db.
Proof.
  split.
  - apply (proj1 (speak_text_gates Processor.exact_round Quota.day0_23h
                    demo_save demo_read demo_b64 configured_world
                    (mkRequest "  " (Some "Zira") (Processor.Fin 1)))).
    reflexivity.
  - apply (proj1 (proj2 (proj2 (proj2
             (speak_text_gates Processor.exact_round Quota.day0_23h
                demo_save demo_read demo_b64 configured_world david_request))))).
    reflexivity.
Defined.

Lemma voice_carries_over_witness :
  voice_property
    (engine (speak_text unit Processor.exact_round 0 demo_save demo_read demo_b64
               (speak_text unit Processor.exact_round 0 demo_save demo_read demo_b64
                  demo_world (mkRequest "Hello" (Some "david") (Processor.Fin 1))).2
               (mkRequest "Hello again" (Some "default") (Processor.Fin 1))).2)
  = "voice/0".
Proof.
  apply (voice_carries_over Processor.exact_round 0 demo_save demo_read demo_b64
           demo_world
           (mkRequest "Hello" (Some "david") (Processor.Fin 1))
           (mkRequest "Hello again" (Some "default") (Processor.Fin 1))
           "david" 0 (mkEntry 0 "voice/0" "David"));
    try reflexivity; try discriminate.
  - intros j y Hj. lia.
  - by left.
Defined.

Lemma preview_text_bounds_witness :
  preview_text "Good morning" = "Good morning".
Proof.
  apply (proj1 (proj2 (preview_text_bounds (wav := unit) Processor.exact_round 0
                         demo_save demo_read demo_b64 "Good morning"))).
  simpl. lia.
Defined.

End VoiceRouteFacts.
